(** * Workspace state engine of the pixel shape editor

    A shallow embedding of [src/stores/workspace-store.ts] (the zustand
    store holding the normalized shape registry, the selection/form draft
    and the view transform) and of [src/utils/workspace-storage.ts] (the
    validation done by [loadWorkspace], [saveWorkspace], and the hydration
    step of [initWorkspacePersistence]), with the pure computations of the
    editor around them: [validateDimensions] of the hook
    [useShapeManagement], [getNewShapePosition] of the editor component,
    and the style computed by [PixelGridLines].

    Conventions of the embedding:
    - a JavaScript [number] that is used as an id or as an array index is
      an integer ([Z]); every other [number] (sizes, opacity, coordinates,
      zoom) is an exact rational ([Qc]).  [NaN] and the infinities are not
      represented, except for the [Infinity] seeds of the bounding box loop
      of [resetView], which are the [None] of an [option Qc];
    - [T | null] is [option T]; a [Record<number, T>] is a [gmap Z T];
    - zustand's [set(partial)] merges the partial object into the state:
      one field update per key of the partial object; an updater that
      returns its argument leaves the state as it is. *)

From Stdlib Require Import QArith Qcanon Qround Lqa.
From stdpp Require Import base numbers option list strings gmap fin_maps.

Local Open Scope Z_scope.
#[local] Set Warnings "-clear-no-such-hyp".

(** ** Numbers *)

(** [Math.round]: the nearest integer, halves towards plus infinity. *)
Definition round (q : Qc) : Qc := Qc_of_Z (Qfloor (q + Q2Qc (1 # 2))%Qc).

Definition Qc_min (a b : Qc) : Qc := if decide (a ≤ b)%Qc then a else b.
Definition Qc_max (a b : Qc) : Qc := if decide (a ≤ b)%Qc then b else a.

(** [clamp(value, min, max) = Math.max(min, Math.min(max, value))]. *)
Definition clamp (value min max : Qc) : Qc := Qc_max min (Qc_min max value).

(** ** Data model *)

Inductive ShapeType := ellipse | crescent | box.

Global Instance ShapeType_eq_dec : EqDecision ShapeType.
Proof. solve_decision. Defined.

Record Point := mkPoint { x : Qc; y : Qc }.

Record ShapeData := mkShape {
  id : Z;
  type : ShapeType;
  width : Qc;
  height : Qc;
  baseColor : string;
  opacity : Qc;
  position : Point
}.

Record NormalizedShapes := mkShapes {
  ids : list Z;
  entities : gmap Z ShapeData
}.

(** The state object of the store.  The type of the [shapeState] field is
    left open: it is [NormalizedShapes] when objects are values, and a
    reference when the heap of objects is made explicit (module [Ref]). *)
Record WorkspaceStateOf (S : Type) := mkState {
  shapeState : S;
  selectedShapeId : option Z;
  currentShapeType : ShapeType;
  formWidth : option Qc;
  formHeight : option Qc;
  formBaseColor : string;
  formOpacity : Qc;
  zoom : Qc;
  canvasOffset : Point;
  isControlsPanelOpen : bool;
  isShapeListOpen : bool
}.

Arguments mkState {S}.
Arguments shapeState {S}.
Arguments selectedShapeId {S}.
Arguments currentShapeType {S}.
Arguments formWidth {S}.
Arguments formHeight {S}.
Arguments formBaseColor {S}.
Arguments formOpacity {S}.
Arguments zoom {S}.
Arguments canvasOffset {S}.
Arguments isControlsPanelOpen {S}.
Arguments isShapeListOpen {S}.

Abbreviation WorkspaceState := (WorkspaceStateOf NormalizedShapes).

(** [Partial<PersistedWorkspace>], the argument of [hydrate]: every field
    may be missing. *)
Record PartialPersisted := mkPartial {
  d_shapes : option (list ShapeData);
  d_zoom : option Qc;
  d_canvasOffset : option Point;
  d_isControlsPanelOpen : option bool;
  d_isShapeListOpen : option bool
}.

(** ** Merging a partial object into the state *)

Section Merge.
Context {S : Type}.
Implicit Type s : WorkspaceStateOf S.

Definition set_shapeState {S'} (v : S') s : WorkspaceStateOf S' :=
  mkState v (selectedShapeId s) (currentShapeType s) (formWidth s)
    (formHeight s) (formBaseColor s) (formOpacity s) (zoom s)
    (canvasOffset s) (isControlsPanelOpen s) (isShapeListOpen s).

Definition set_selectedShapeId (v : option Z) s :=
  mkState (shapeState s) v (currentShapeType s) (formWidth s)
    (formHeight s) (formBaseColor s) (formOpacity s) (zoom s)
    (canvasOffset s) (isControlsPanelOpen s) (isShapeListOpen s).

Definition set_currentShapeType (v : ShapeType) s :=
  mkState (shapeState s) (selectedShapeId s) v (formWidth s)
    (formHeight s) (formBaseColor s) (formOpacity s) (zoom s)
    (canvasOffset s) (isControlsPanelOpen s) (isShapeListOpen s).

Definition set_formWidth (v : option Qc) s :=
  mkState (shapeState s) (selectedShapeId s) (currentShapeType s) v
    (formHeight s) (formBaseColor s) (formOpacity s) (zoom s)
    (canvasOffset s) (isControlsPanelOpen s) (isShapeListOpen s).

Definition set_formHeight (v : option Qc) s :=
  mkState (shapeState s) (selectedShapeId s) (currentShapeType s)
    (formWidth s) v (formBaseColor s) (formOpacity s) (zoom s)
    (canvasOffset s) (isControlsPanelOpen s) (isShapeListOpen s).

Definition set_formBaseColor (v : string) s :=
  mkState (shapeState s) (selectedShapeId s) (currentShapeType s)
    (formWidth s) (formHeight s) v (formOpacity s) (zoom s)
    (canvasOffset s) (isControlsPanelOpen s) (isShapeListOpen s).

Definition set_formOpacity (v : Qc) s :=
  mkState (shapeState s) (selectedShapeId s) (currentShapeType s)
    (formWidth s) (formHeight s) (formBaseColor s) v (zoom s)
    (canvasOffset s) (isControlsPanelOpen s) (isShapeListOpen s).

Definition set_zoom (v : Qc) s :=
  mkState (shapeState s) (selectedShapeId s) (currentShapeType s)
    (formWidth s) (formHeight s) (formBaseColor s) (formOpacity s) v
    (canvasOffset s) (isControlsPanelOpen s) (isShapeListOpen s).

Definition set_canvasOffset (v : Point) s :=
  mkState (shapeState s) (selectedShapeId s) (currentShapeType s)
    (formWidth s) (formHeight s) (formBaseColor s) (formOpacity s)
    (zoom s) v (isControlsPanelOpen s) (isShapeListOpen s).

Definition set_isControlsPanelOpen (v : bool) s :=
  mkState (shapeState s) (selectedShapeId s) (currentShapeType s)
    (formWidth s) (formHeight s) (formBaseColor s) (formOpacity s)
    (zoom s) (canvasOffset s) v (isShapeListOpen s).

Definition set_isShapeListOpen (v : bool) s :=
  mkState (shapeState s) (selectedShapeId s) (currentShapeType s)
    (formWidth s) (formHeight s) (formBaseColor s) (formOpacity s)
    (zoom s) (canvasOffset s) (isControlsPanelOpen s) v.

(** The six keys written after a successful add or update, and by
    [resetFormToDefaults]. *)
Definition reset_form s :=
  set_formOpacity 1%Qc
    (set_formBaseColor "#007BFF"
      (set_formHeight (Some (Qc_of_Z 10))
        (set_formWidth (Some (Qc_of_Z 10))
          (set_currentShapeType ellipse
            (set_selectedShapeId None s))))).
End Merge.

(** ** Arrays *)

(** [Array.prototype.indexOf]: the first index holding [v], or [-1]. *)
Fixpoint indexOf (l : list Z) (v : Z) : Z :=
  match l with
  | [] => -1
  | a :: l' =>
      if decide (a = v) then 0
      else let r := indexOf l' v in if decide (r = -1) then -1 else 1 + r
  end.

(** The start index of [splice] and friends: a negative index counts from
    the end, and the result is clamped into [0, len]. *)
Definition relativeStart (len start : Z) : Z :=
  if decide (start < 0) then Z.max (len + start) 0 else Z.min start len.

(** [l.splice(start, deleteCount, ...items)]: the removed elements and the
    array as it is left. *)
Definition splice {A} (l : list A) (start deleteCount : Z) (items : list A)
  : list A * list A :=
  let len := Z.of_nat (length l) in
  let s := relativeStart len start in
  let dc := Z.min (Z.max deleteCount 0) (len - s) in
  (take (Z.to_nat dc) (drop (Z.to_nat s) l),
   take (Z.to_nat s) l ++ items ++ drop (Z.to_nat (s + dc)) l).

Arguments splice : simpl never.

(** ** Helpers of the store *)

Definition normalizeShapes (shapes : list ShapeData) : NormalizedShapes :=
  foldl (λ acc shape,
           mkShapes (ids acc ++ [id shape])
                    (<[id shape := shape]> (entities acc)))
        (mkShapes [] ∅) shapes.

(** [state.ids.map((id) => state.entities[id])]: an id without an entity
    yields [undefined], here [None]. *)
Definition denormalizeShapes (state : NormalizedShapes)
  : list (option ShapeData) :=
  (λ i, entities state !! i) <$> ids state.

Definition DEFAULT_STATE : WorkspaceState :=
  mkState (mkShapes [] ∅) None ellipse (Some (Qc_of_Z 10))
    (Some (Qc_of_Z 10)) "#007BFF" 1%Qc (Qc_of_Z 10) (mkPoint 0%Qc 0%Qc)
    false false.

(** [!selectedShapeId] and [id ? ... : null]: [null] and [0] are falsy. *)
Definition truthy_id (o : option Z) : option Z :=
  match o with
  | Some i => if decide (i = 0) then None else Some i
  | None => None
  end.

(** The dimension test shared by [addShape] and [updateSelectedShape]:
    the pair of dimensions when neither is [null] or non-positive. *)
Definition valid_dimensions (w h : option Qc) : option (Qc * Qc) :=
  match w, h with
  | Some w, Some h =>
      if decide (w ≤ 0)%Qc then None
      else if decide (h ≤ 0)%Qc then None else Some (w, h)
  | _, _ => None
  end.

(** ** The store: shape actions *)

Implicit Type s : WorkspaceState.

(** [addShape(position)].  [now] is the value read from [Date.now()]. *)
Definition addShape (now : Z) (position : Point) s : bool * WorkspaceState :=
  match valid_dimensions (formWidth s) (formHeight s) with
  | None => (false, s)
  | Some (w, h) =>
      let newShapeId := now in
      let newShape :=
        mkShape newShapeId (currentShapeType s) w h (formBaseColor s)
          (formOpacity s) (mkPoint (round (x position)) (round (y position))) in
      (true,
       reset_form
         (set_shapeState
            (mkShapes (ids (shapeState s) ++ [newShapeId])
                      (<[newShapeId := newShape]> (entities (shapeState s))))
            s))
  end.

Definition updateSelectedShape s : bool * WorkspaceState :=
  match truthy_id (selectedShapeId s) with
  | None => (false, s)
  | Some sel =>
      match valid_dimensions (formWidth s) (formHeight s) with
      | None => (false, s)
      | Some (w, h) =>
          (true,
           match entities (shapeState s) !! sel with
           | None => s
           | Some existingShape =>
               reset_form
                 (set_shapeState
                    (mkShapes (ids (shapeState s))
                       (<[sel := mkShape (id existingShape)
                                   (type existingShape) w h (formBaseColor s)
                                   (formOpacity s) (position existingShape)]>
                          (entities (shapeState s))))
                    s)
           end)
      end
  end.

Definition removeShape (i : Z) s : WorkspaceState :=
  let remainingEntities := delete i (entities (shapeState s)) in
  let newIds := filter (λ shapeId, shapeId ≠ i) (ids (shapeState s)) in
  let newSelectedId :=
    if decide (selectedShapeId s = Some i) then head newIds
    else selectedShapeId s in
  set_selectedShapeId newSelectedId
    (set_shapeState (mkShapes newIds remainingEntities) s).

Definition moveShape (i : Z) (pos : Point) s : WorkspaceState :=
  match entities (shapeState s) !! i with
  | None => s
  | Some existingShape =>
      set_shapeState
        (mkShapes (ids (shapeState s))
           (<[i := mkShape (id existingShape) (type existingShape)
                     (width existingShape) (height existingShape)
                     (baseColor existingShape) (opacity existingShape) pos]>
              (entities (shapeState s))))
        s
  end.

(** The [switch] of [moveShapeLayer], applied to the copy of the order
    from which [shapeId] was spliced out; [len] is the length of the
    order before the removal. *)
Definition reinsert (direction : string) (len currentIndex shapeId : Z)
    (newIds : list Z) : list Z :=
  if decide (direction = "toFront") then newIds ++ [shapeId]
  else if decide (direction = "toBack") then shapeId :: newIds
  else if decide (direction = "forward") then
    (splice newIds (Z.min (len - 1) (currentIndex + 1)) 0 [shapeId]).2
  else if decide (direction = "backward") then
    (splice newIds (Z.max 0 (currentIndex - 1)) 0 [shapeId]).2
  else (splice newIds currentIndex 0 [shapeId]).2.

Definition moveShapeLayer_ids (shapeId : Z) (direction : string)
    (l : list Z) : option (list Z) :=
  let currentIndex := indexOf l shapeId in
  if decide (currentIndex = -1) then None
  else
    let newIds := (splice l currentIndex 1 []).2 in
    Some (reinsert direction (Z.of_nat (length l)) currentIndex shapeId newIds).

Definition moveShapeLayer (shapeId : Z) (direction : string) s
  : WorkspaceState :=
  match moveShapeLayer_ids shapeId direction (ids (shapeState s)) with
  | None => s
  | Some newIds =>
      set_shapeState (mkShapes newIds (entities (shapeState s))) s
  end.

(** [reorderShapes(fromIndex, toIndex)] on the order.  When the first
    [splice] removes nothing, [movedId] is [undefined] and the source
    inserts it into the [number[]]: that array is not a [list Z], and the
    result is [None]. *)
Definition reorderShapes_ids (fromIndex toIndex : Z) (l : list Z)
  : option (list Z) :=
  let '(removed, newIds) := splice l fromIndex 1 [] in
  match removed with
  | movedId :: _ => Some (splice newIds toIndex 0 [movedId]).2
  | [] => None
  end.

Definition reorderShapes (fromIndex toIndex : Z) s : option WorkspaceState :=
  newIds ← reorderShapes_ids fromIndex toIndex (ids (shapeState s));
  Some (set_shapeState (mkShapes newIds (entities (shapeState s))) s).

(** ** The store: selection and form actions *)

Definition setSelectedShapeId (i : option Z) s : WorkspaceState :=
  let shape := i' ← truthy_id i; entities (shapeState s) !! i' in
  match shape with
  | Some shape =>
      set_currentShapeType (type shape)
        (set_formOpacity (opacity shape)
           (set_formBaseColor (baseColor shape)
              (set_formHeight (Some (height shape))
                 (set_formWidth (Some (width shape))
                    (set_selectedShapeId i s)))))
  | None => set_selectedShapeId None s
  end.

Definition resetFormToDefaults s : WorkspaceState := reset_form s.

Definition setCurrentShapeType (t : ShapeType) s := set_currentShapeType t s.
Definition setFormWidth (w : option Qc) s := set_formWidth w s.
Definition setFormHeight (h : option Qc) s := set_formHeight h s.
Definition setFormBaseColor (c : string) s := set_formBaseColor c s.
Definition setFormOpacity (o : Qc) s := set_formOpacity o s.

(** ** The store: UI actions *)

Definition setControlsPanelOpen (b : bool) s := set_isControlsPanelOpen b s.
Definition setShapeListOpen (b : bool) s := set_isShapeListOpen b s.
Definition toggleControlsPanel s :=
  set_isControlsPanelOpen (negb (isControlsPanelOpen s)) s.
Definition toggleShapeList s :=
  set_isShapeListOpen (negb (isShapeListOpen s)) s.

(** ** The store: view actions and hydration *)

(** The bounding box accumulated by the loop of [resetView]; [None] is
    the seed ([Infinity] for a minimum, [-Infinity] for a maximum). *)
Record Bounds := mkBounds {
  minX : option Qc;
  minY : option Qc;
  maxX : option Qc;
  maxY : option Qc
}.

Definition min_acc (acc : option Qc) (v : Qc) : option Qc :=
  Some (from_option (λ a, Qc_min a v) v acc).
Definition max_acc (acc : option Qc) (v : Qc) : option Qc :=
  Some (from_option (λ a, Qc_max a v) v acc).

Definition extend (b : Bounds) (shape : ShapeData) : Bounds :=
  mkBounds (min_acc (minX b) (x (position shape)))
           (min_acc (minY b) (y (position shape)))
           (max_acc (maxX b) (x (position shape) + width shape)%Qc)
           (max_acc (maxY b) (y (position shape) + height shape)%Qc).

(** The loop [for (const shape of shapes)]: reading [shape.position] of an
    [undefined] element throws, which is the [None] result. *)
Fixpoint boundingBox (b : Bounds) (shapes : list (option ShapeData))
  : option Bounds :=
  match shapes with
  | [] => Some b
  | Some shape :: rest => boundingBox (extend b shape) rest
  | None :: _ => None
  end.

Section View.
(** The zoom bounds are imported from [constants/pixel-shape]. *)
Variables MIN_ZOOM MAX_ZOOM : Qc.

Definition setZoom (z : Qc) s : WorkspaceState :=
  set_zoom (clamp z MIN_ZOOM MAX_ZOOM) s.

Definition setCanvasOffset (offset : Point) s : WorkspaceState :=
  set_canvasOffset offset s.

Definition updateView (z : Qc) (offset : Point) s : WorkspaceState :=
  set_canvasOffset offset (set_zoom (clamp z MIN_ZOOM MAX_ZOOM) s).

(** The zoom and offset computed by [resetView] from the bounding box. *)
Definition fit (viewportWidth viewportHeight : Qc) (b : Bounds)
  : Qc * Point :=
  let PADDING := Qc_of_Z 50 in
  let fallback := (Qc_of_Z 10, mkPoint 0 0)%Qc in
  match minX b, minY b, maxX b, maxY b with
  | Some minX, Some minY, Some maxX, Some maxY =>
      let worldW := (maxX - minX)%Qc in
      let worldH := (maxY - minY)%Qc in
      if decide (0 < worldW ∧ 0 < worldH)%Qc then
        let availableW := Qc_max 1 (viewportWidth - 2 * PADDING)%Qc in
        let availableH := Qc_max 1 (viewportHeight - 2 * PADDING)%Qc in
        let zoomToFitW := (availableW / worldW)%Qc in
        let zoomToFitH := (availableH / worldH)%Qc in
        let newZoom :=
          clamp (Qc_min zoomToFitW zoomToFitH) MIN_ZOOM MAX_ZOOM in
        let worldCenterX := ((minX + maxX) / 2)%Qc in
        let worldCenterY := ((minY + maxY) / 2)%Qc in
        let viewportCenterX := (viewportWidth / 2)%Qc in
        let viewportCenterY := (viewportHeight / 2)%Qc in
        (newZoom,
         mkPoint (viewportCenterX - worldCenterX * newZoom)%Qc
                 (viewportCenterY - worldCenterY * newZoom)%Qc)
      else fallback
  | _, _, _, _ => fallback
  end.

(** [resetView(viewportWidth, viewportHeight)]; [None] when the loop
    throws (the store is then left as it was). *)
Definition resetView (viewportWidth viewportHeight : Qc) s
  : option WorkspaceState :=
  let shapes := denormalizeShapes (shapeState s) in
  if decide (0 < length shapes)%nat then
    b ← boundingBox (mkBounds None None None None) shapes;
    let '(newZoom, newOffset) := fit viewportWidth viewportHeight b in
    Some (set_canvasOffset newOffset (set_zoom newZoom s))
  else
    Some (set_canvasOffset (mkPoint 0 0)%Qc (set_zoom (Qc_of_Z 10) s)).

Definition hydrate (data : PartialPersisted) s : WorkspaceState :=
  let shapes := default [] (d_shapes data) in
  set_isShapeListOpen (default false (d_isShapeListOpen data))
    (set_isControlsPanelOpen (default false (d_isControlsPanelOpen data))
       (set_canvasOffset (default (mkPoint 0 0)%Qc (d_canvasOffset data))
          (set_zoom (clamp (default (Qc_of_Z 10) (d_zoom data))
                           MIN_ZOOM MAX_ZOOM)
             (set_selectedShapeId None
                (set_shapeState (normalizeShapes shapes) s))))).

(** ** Runs of the store *)

Inductive Action :=
| AddShape (now : Z) (position : Point)
| UpdateSelectedShape
| RemoveShape (i : Z)
| MoveShape (i : Z) (position : Point)
| MoveShapeLayer (shapeId : Z) (direction : string)
| ReorderShapes (fromIndex toIndex : Z)
| SetSelectedShapeId (i : option Z)
| ResetFormToDefaults
| SetCurrentShapeType (t : ShapeType)
| SetFormWidth (w : option Qc)
| SetFormHeight (h : option Qc)
| SetFormBaseColor (c : string)
| SetFormOpacity (o : Qc)
| SetZoom (z : Qc)
| SetCanvasOffset (offset : Point)
| UpdateView (z : Qc) (offset : Point)
| ResetView (viewportWidth viewportHeight : Qc)
| SetControlsPanelOpen (b : bool)
| SetShapeListOpen (b : bool)
| ToggleControlsPanel
| ToggleShapeList
| Hydrate (data : PartialPersisted).

(** The state of the store after one call.  A call of [resetView] that
    throws leaves the state as it was; a call of [reorderShapes] that
    leaves the typed model has no successor. *)
Definition dispatch (a : Action) s : option WorkspaceState :=
  match a with
  | AddShape now position => Some (addShape now position s).2
  | UpdateSelectedShape => Some (updateSelectedShape s).2
  | RemoveShape i => Some (removeShape i s)
  | MoveShape i position => Some (moveShape i position s)
  | MoveShapeLayer shapeId direction =>
      Some (moveShapeLayer shapeId direction s)
  | ReorderShapes fromIndex toIndex => reorderShapes fromIndex toIndex s
  | SetSelectedShapeId i => Some (setSelectedShapeId i s)
  | ResetFormToDefaults => Some (resetFormToDefaults s)
  | SetCurrentShapeType t => Some (setCurrentShapeType t s)
  | SetFormWidth w => Some (setFormWidth w s)
  | SetFormHeight h => Some (setFormHeight h s)
  | SetFormBaseColor c => Some (setFormBaseColor c s)
  | SetFormOpacity o => Some (setFormOpacity o s)
  | SetZoom z => Some (setZoom z s)
  | SetCanvasOffset offset => Some (setCanvasOffset offset s)
  | UpdateView z offset => Some (updateView z offset s)
  | ResetView vw vh => Some (default s (resetView vw vh s))
  | SetControlsPanelOpen b => Some (setControlsPanelOpen b s)
  | SetShapeListOpen b => Some (setShapeListOpen b s)
  | ToggleControlsPanel => Some (toggleControlsPanel s)
  | ToggleShapeList => Some (toggleShapeList s)
  | Hydrate data => Some (hydrate data s)
  end.

(** The states the store can be in: the initial state and what any
    sequence of calls makes of it. *)
Inductive reachable : WorkspaceState → Prop :=
| reachable_init : reachable DEFAULT_STATE
| reachable_step a s s' :
    reachable s → dispatch a s = Some s' → reachable s'.

(** A call that brings an id of its own: [addShape] reads the clock, and
    [hydrate] takes the ids of the stored shapes.  The call is [unique]
    when that id is not yet in the collection, respectively when the
    stored shapes have pairwise different ids. *)
Definition unique (a : Action) s : Prop :=
  match a with
  | AddShape now _ => now ∉ ids (shapeState s)
  | Hydrate data => NoDup (id <$> default [] (d_shapes data))
  | _ => True
  end.

Inductive reachable_unique : WorkspaceState → Prop :=
| reachable_unique_init : reachable_unique DEFAULT_STATE
| reachable_unique_step a s s' :
    reachable_unique s → unique a s → dispatch a s = Some s' →
    reachable_unique s'.
End View.

(** The invariant of the shape collection. *)
Definition same_ids (n : NormalizedShapes) : Prop :=
  ∀ i, i ∈ ids n ↔ is_Some (entities n !! i).

Definition collection_ok (n : NormalizedShapes) : Prop :=
  NoDup (ids n) ∧ same_ids n ∧ length (ids n) = size (entities n).

(** ** Predicates on states *)

Definition zoom_in_bounds (MIN_ZOOM MAX_ZOOM : Qc) (s : WorkspaceState)
  : Prop :=
  (MIN_ZOOM ≤ zoom s ≤ MAX_ZOOM)%Qc.

(** The draft holds the creation defaults and nothing is selected. *)
Definition draft_is_default {S} (s : WorkspaceStateOf S) : Prop :=
  selectedShapeId s = None
  ∧ currentShapeType s = ellipse
  ∧ formWidth s = Some (Qc_of_Z 10)
  ∧ formHeight s = Some (Qc_of_Z 10)
  ∧ formBaseColor s = "#007BFF"
  ∧ formOpacity s = 1%Qc.

(** The selection, when there is one, refers to an entity. *)
Definition selection_resolves (s : WorkspaceState) : Prop :=
  ∀ sel, selectedShapeId s = Some sel →
         is_Some (entities (shapeState s) !! sel).

(** Two states that differ in the selection and the draft at most. *)
Definition same_outside_draft (s s' : WorkspaceState) : Prop :=
  shapeState s' = shapeState s
  ∧ zoom s' = zoom s
  ∧ canvasOffset s' = canvasOffset s
  ∧ isControlsPanelOpen s' = isControlsPanelOpen s
  ∧ isShapeListOpen s' = isShapeListOpen s.

(** The id generated by a successful [addShape]: the last of the order of
    the state it leaves. *)
Definition generated_id (s' : WorkspaceState) : option Z :=
  last (ids (shapeState s')).

(** ** Sample states *)

(** Sample zoom bounds and inputs for the concrete runs below. *)
Definition lo : Qc := 1%Qc.

Definition hi : Qc := Qc_of_Z 100.

Definition origin : Point := mkPoint 0%Qc 0%Qc.

(** Two shapes added at the clock readings 1000 and 1001. *)
Definition two_shapes : WorkspaceState :=
  (addShape 1001 origin (addShape 1000 origin DEFAULT_STATE).2).2.

(** Two shapes added within one millisecond. *)
Definition same_tick : WorkspaceState :=
  (addShape 1000 origin (addShape 1000 origin DEFAULT_STATE).2).2.

(** A stored collection holding the id 7 twice. *)
Definition twin (w : Qc) : ShapeData :=
  mkShape 7 box w w "#000000" 1%Qc origin.

Definition twice_stored : WorkspaceState :=
  hydrate lo hi
    (mkPartial (Some [twin 1%Qc; twin (Qc_of_Z 2)]) None None None None)
    DEFAULT_STATE.

(** A fit of one 10 by 10 shape into a 300 by 300 viewport. *)
Definition fitted : option WorkspaceState :=
  resetView lo hi (Qc_of_Z 300) (Qc_of_Z 300)
    (addShape 1000 origin DEFAULT_STATE).2.

(** A stored box with id 5, selected and then edited in the form: the
    pending kind is [crescent], the pending size 3 by 4. *)
Definition stored_box : ShapeData :=
  mkShape 5 box (Qc_of_Z 8) (Qc_of_Z 8) "#000000" 1%Qc
    (mkPoint (Qc_of_Z 2) (Qc_of_Z 3)).

Definition editing : WorkspaceState :=
  setFormBaseColor "#FF0000"
    (setFormHeight (Some (Qc_of_Z 4))
       (setFormWidth (Some (Qc_of_Z 3))
          (setCurrentShapeType crescent
             (setSelectedShapeId (Some 5)
                (hydrate lo hi
                   (mkPartial (Some [stored_box]) None None None None)
                   DEFAULT_STATE))))).

(** Two stored shapes with the ids 0 and 5; the second is selected and
    then removed, and the selection falls back to the first id, 0. *)
Definition zero_selected : WorkspaceState :=
  removeShape 5
    (setSelectedShapeId (Some 5)
       (hydrate lo hi
          (mkPartial
             (Some [mkShape 0 box 1%Qc 1%Qc "#000000" 1%Qc origin; stored_box])
             None None None None)
          DEFAULT_STATE)).


(** A stored shape without extent, and a view that is not the default. *)
Definition flat_content : WorkspaceState :=
  hydrate lo hi
    (mkPartial (Some [mkShape 5 box 0%Qc 0%Qc "#000000" 1%Qc origin])
       (Some (Qc_of_Z 20)) (Some (mkPoint (Qc_of_Z 5) (Qc_of_Z 5)))
       None None)
    DEFAULT_STATE.

(** ** Persistence: validation on load ([workspace-storage.ts]) *)

Module Storage.

(** A value produced by [JSON.parse].  An object is the list of its
    properties, each key occurring once. *)
#[local] Set Warnings "-register-all".
Inductive json :=
| JNull
| JBool (b : bool)
| JNum (n : Qc)
| JStr (s : string)
| JArr (l : list json)
| JObj (fields : list (string * json)).

Fixpoint assoc (k : string) (fields : list (string * json)) : option json :=
  match fields with
  | [] => None
  | (k', v) :: rest => if decide (k' = k) then Some v else assoc k rest
  end.

(** [v.k] for the property names read by this file; [None] is
    [undefined].  None of these names is a property of an array. *)
Definition get (v : json) (k : string) : option json :=
  match v with
  | JObj fields => assoc k fields
  | _ => None
  end.

(** [typeof v === 'object'], which holds of [null] and of arrays too. *)
Definition typeof_object (v : option json) : bool :=
  match v with
  | Some JNull | Some (JArr _) | Some (JObj _) => true
  | _ => false
  end.

Definition is_null (v : option json) : bool :=
  match v with Some JNull => true | _ => false end.

Definition as_number (v : option json) : option Qc :=
  match v with Some (JNum n) => Some n | _ => None end.

Definition as_string (v : option json) : option string :=
  match v with Some (JStr s) => Some s | _ => None end.

Definition as_boolean (v : option json) : option bool :=
  match v with Some (JBool b) => Some b | _ => None end.

Definition is_number (v : option json) : bool := bool_decide (is_Some (as_number v)).
Definition is_string (v : option json) : bool := bool_decide (is_Some (as_string v)).

(** A numeric test [v op c] guarded by [typeof v === 'number']. *)
Definition number_such_that (P : Qc → bool) (v : option json) : bool :=
  from_option P false (as_number v).

Definition isValidShape (shape : json) : bool :=
  if negb (typeof_object (Some shape)) || is_null (Some shape) then false
  else
    is_number (get shape "id")
    && is_string (get shape "type")
    && from_option (λ t, bool_decide (t ∈ ["ellipse"; "crescent"; "box"]))
         false (as_string (get shape "type"))
    && is_number (get shape "width")
    && number_such_that (λ w, bool_decide (0 < w)%Qc) (get shape "width")
    && is_number (get shape "height")
    && number_such_that (λ h, bool_decide (0 < h)%Qc) (get shape "height")
    && is_string (get shape "baseColor")
    && is_number (get shape "opacity")
    && number_such_that (λ o, bool_decide (0 ≤ o)%Qc) (get shape "opacity")
    && number_such_that (λ o, bool_decide (o ≤ 1)%Qc) (get shape "opacity")
    && typeof_object (get shape "position")
    && negb (is_null (get shape "position"))
    && is_number (p ← get shape "position"; get p "x")
    && is_number (p ← get shape "position"; get p "y").

Definition VERSION : Qc := 1%Qc.

(** The record returned by [loadWorkspace].  The shapes are the stored
    values that passed [isValidShape], as they were parsed. *)
Record PersistedWorkspace := mkPersisted {
  p_version : Qc;
  p_shapes : list json;
  p_zoom : Qc;
  p_canvasOffset : Point;
  p_isControlsPanelOpen : bool;
  p_isShapeListOpen : bool
}.

(** What [localStorage.getItem(STORAGE_KEY)] does: it throws, or it
    returns the stored string or [null]. *)
Inductive Lookup := Throws | Returns (stored : option string).

Section Load.
Variables MIN_ZOOM MAX_ZOOM : Qc.
(** [JSON.parse]; [None] when it throws. *)
Variable JSON_parse : string → option json.

(** The body of the [try] block from the parsed value on. *)
Definition validate (parsed : json) : option PersistedWorkspace :=
  if negb (typeof_object (Some parsed)) || is_null (Some parsed) then None
  else if negb (bool_decide (as_number (get parsed "version") = Some VERSION))
  then None
  else
    match get parsed "shapes" with
    | Some (JArr shapes) =>
        let validShapes := filter (λ v, isValidShape v = true) shapes in
        let zoom :=
          match as_number (get parsed "zoom") with
          | Some z => clamp z MIN_ZOOM MAX_ZOOM
          | None => Qc_of_Z 10
          end in
        let offset := get parsed "canvasOffset" in
        let canvasOffset :=
          if typeof_object offset && negb (is_null offset) then
            match as_number (o ← offset; get o "x"),
                  as_number (o ← offset; get o "y") with
            | Some ox, Some oy => mkPoint ox oy
            | _, _ => mkPoint 0 0
            end
          else mkPoint 0 0 in
        let isControlsPanelOpen :=
          default false (as_boolean (get parsed "isControlsPanelOpen")) in
        let isShapeListOpen :=
          default false (as_boolean (get parsed "isShapeListOpen")) in
        Some (mkPersisted VERSION validShapes zoom canvasOffset
                isControlsPanelOpen isShapeListOpen)
    | _ => None
    end.

(** [loadWorkspace()]; [windowDefined] is
    [typeof window !== 'undefined']. *)
Definition loadWorkspace (windowDefined : bool) (item : Lookup)
  : option PersistedWorkspace :=
  if negb windowDefined then None
  else
    match item with
    | Throws => None
    | Returns None => None
    | Returns (Some stored) =>
        if decide (stored = "") then None
        else parsed ← JSON_parse stored; validate parsed
    end.
End Load.

(** The schema of a stored shape, in the words of the specification: id
    numeric, kind in the fixed enumeration, width and height positive
    numbers, base colour a string, opacity numeric in [0, 1], position
    with both fields numeric. *)
Definition shape_schema (v : json) : Prop :=
  ∃ i kind w h color o p px py,
    get v "id" = Some (JNum i)
    ∧ get v "type" = Some (JStr kind)
    ∧ kind ∈ ["ellipse"; "crescent"; "box"]
    ∧ get v "width" = Some (JNum w) ∧ (0 < w)%Qc
    ∧ get v "height" = Some (JNum h) ∧ (0 < h)%Qc
    ∧ get v "baseColor" = Some (JStr color)
    ∧ get v "opacity" = Some (JNum o) ∧ (0 ≤ o ≤ 1)%Qc
    ∧ get v "position" = Some p
    ∧ get p "x" = Some (JNum px)
    ∧ get p "y" = Some (JNum py).

(** A stored record with two valid shapes around a malformed one, whose
    width is negative. *)
Definition stored_shape (i w : Z) : json :=
  JObj [("id", JNum (Qc_of_Z i)); ("type", JStr "box");
        ("width", JNum (Qc_of_Z w)); ("height", JNum (Qc_of_Z 4));
        ("baseColor", JStr "#007BFF"); ("opacity", JNum 1%Qc);
        ("position", JObj [("x", JNum 0%Qc); ("y", JNum 0%Qc)])].

Definition payload (version : Z) : json :=
  JObj [("version", JNum (Qc_of_Z version));
        ("shapes",
         JArr [stored_shape 1 3; stored_shape 2 (-3); stored_shape 3 5]);
        ("zoom", JNum (Qc_of_Z 10));
        ("canvasOffset", JObj [("x", JNum 0%Qc); ("y", JNum 0%Qc)]);
        ("isControlsPanelOpen", JBool false);
        ("isShapeListOpen", JBool true)].
End Storage.

(** ** The store over an explicit heap of objects

    The actions that promise to share the objects they do not change are
    modelled once more with the objects of the collection allocated in a
    heap, so that two occurrences of one object are told apart from two
    objects with equal contents.  An object, once reachable from the state,
    is never written to: every action allocates the objects it changes. *)

Module Ref.

Definition loc := positive.

Inductive obj :=
| OArray (l : list Z)                 (* the order, a [number[]] *)
| OShape (shape : ShapeData)          (* one entity *)
| OEntities (m : gmap Z loc)          (* the mapping, from ids to entities *)
| OShapeState (ids entities : loc).   (* [{ ids, entities }] *)

Record Store := mkStore {
  heap : gmap loc obj;
  state : WorkspaceStateOf loc
}.

Definition alloc (o : obj) (h : gmap loc obj) : loc * gmap loc obj :=
  let l := fresh (dom h) in (l, <[l := o]> h).

Definition read_array (h : gmap loc obj) (l : loc) : option (list Z) :=
  match h !! l with Some (OArray a) => Some a | _ => None end.

Definition read_shape (h : gmap loc obj) (l : loc) : option ShapeData :=
  match h !! l with Some (OShape sh) => Some sh | _ => None end.

Definition read_entities (h : gmap loc obj) (l : loc)
  : option (gmap Z loc) :=
  match h !! l with Some (OEntities m) => Some m | _ => None end.

Definition read_shapeState (h : gmap loc obj) (l : loc)
  : option (loc * loc) :=
  match h !! l with Some (OShapeState i e) => Some (i, e) | _ => None end.

Implicit Type σ : Store.

Definition moveShape (i : Z) (pos : Point) σ : option Store :=
  '(lids, lent) ← read_shapeState (heap σ) (shapeState (state σ));
  m ← read_entities (heap σ) lent;
  match m !! i with
  | None => Some σ
  | Some lshape =>
      existingShape ← read_shape (heap σ) lshape;
      let '(lshape', h1) :=
        alloc (OShape (mkShape (id existingShape) (type existingShape)
                         (width existingShape) (height existingShape)
                         (baseColor existingShape) (opacity existingShape)
                         pos))
              (heap σ) in
      let '(lent', h2) := alloc (OEntities (<[i := lshape']> m)) h1 in
      let '(lstate', h3) := alloc (OShapeState lids lent') h2 in
      Some (mkStore h3 (set_shapeState lstate' (state σ)))
  end.

(** [newIds] is a fresh copy of the order; the two [splice] calls write
    to that copy before it becomes reachable from the state. *)
Definition moveShapeLayer (shapeId : Z) (direction : string) σ
  : option Store :=
  '(lids, lent) ← read_shapeState (heap σ) (shapeState (state σ));
  l ← read_array (heap σ) lids;
  let currentIndex := indexOf l shapeId in
  if decide (currentIndex = -1) then Some σ
  else
    let '(lnew, h1) := alloc (OArray l) (heap σ) in
    let spliced := (splice l currentIndex 1 []).2 in
    let h2 := <[lnew := OArray spliced]> h1 in
    let h3 :=
      <[lnew := OArray (reinsert direction (Z.of_nat (length l))
                          currentIndex shapeId spliced)]> h2 in
    let '(lstate', h4) := alloc (OShapeState lnew lent) h3 in
    Some (mkStore h4 (set_shapeState lstate' (state σ))).

Definition reorderShapes (fromIndex toIndex : Z) σ : option Store :=
  '(lids, lent) ← read_shapeState (heap σ) (shapeState (state σ));
  l ← read_array (heap σ) lids;
  let '(lnew, h1) := alloc (OArray l) (heap σ) in
  let '(removed, spliced) := splice l fromIndex 1 [] in
  let h2 := <[lnew := OArray spliced]> h1 in
  match removed with
  | movedId :: _ =>
      let h3 :=
        <[lnew := OArray (splice spliced toIndex 0 [movedId]).2]> h2 in
      let '(lstate', h4) := alloc (OShapeState lnew lent) h3 in
      Some (mkStore h4 (set_shapeState lstate' (state σ)))
  | [] => None
  end.

(** The collection a store holds, read through its references. *)
Definition collection σ : option NormalizedShapes :=
  '(lids, lent) ← read_shapeState (heap σ) (shapeState (state σ));
  l ← read_array (heap σ) lids;
  m ← read_entities (heap σ) lent;
  Some (mkShapes l (omap (read_shape (heap σ)) m)).

(** The state with its objects as values. *)
Definition erase σ : option WorkspaceState :=
  n ← collection σ; Some (set_shapeState n (state σ)).

(** Every reference of the mapping leads to an entity. *)
Definition entities_resolve σ : Prop :=
  ∀ lids lent m,
    read_shapeState (heap σ) (shapeState (state σ)) = Some (lids, lent) →
    read_entities (heap σ) lent = Some m →
    ∀ i l, m !! i = Some l → is_Some (read_shape (heap σ) l).

(** The fields of the state object other than [shapeState]. *)
Definition other_fields σ : WorkspaceStateOf unit :=
  set_shapeState () (state σ).
(** Every object of [h] is an object of [h'], with the same contents: no
    object of [h] was written to. *)
Definition preserved (h h' : gmap loc obj) : Prop :=
  ∀ l, is_Some (h !! l) → h' !! l = h !! l.

(** The entity that [moveShape] allocates. *)
Definition moved (e : ShapeData) (pos : Point) : ShapeData :=
  mkShape (id e) (type e) (width e) (height e) (baseColor e) (opacity e)
    pos.

(** A store holding the shapes 5 and 6, in this order. *)
Definition shape5 : ShapeData := stored_box.

Definition shape6 : ShapeData :=
  mkShape 6 ellipse 1%Qc 1%Qc "#FFFFFF" 1%Qc origin.

Definition sample : Store :=
  mkStore
    (list_to_map
       [(1%positive, OArray [5; 6]);
        (2%positive, OShape shape5);
        (3%positive, OShape shape6);
        (4%positive,
         OEntities (list_to_map [(5, 2%positive); (6, 3%positive)]));
        (5%positive, OShapeState 1%positive 4%positive)])
    (set_shapeState 5%positive DEFAULT_STATE).
End Ref.

(** ** Selectors and the persisted form of the state *)

Definition selectShapes s : list (option ShapeData) :=
  (λ i, entities (shapeState s) !! i) <$> ids (shapeState s).

Definition selectSelectedShape s : option ShapeData :=
  i ← truthy_id (selectedShapeId s); entities (shapeState s) !! i.

Definition selectIsEditing s : bool := bool_decide (selectedShapeId s ≠ None).

(** The interface [PersistedWorkspace] of the store, as
    [getPersistedWorkspace] fills it.  The shapes come from
    [denormalizeShapes], and an id without an entity leaves [undefined] in
    the array. *)
Record Snapshot := mkSnapshot {
  w_version : Z;
  w_shapes : list (option ShapeData);
  w_zoom : Qc;
  w_canvasOffset : Point;
  w_isControlsPanelOpen : bool;
  w_isShapeListOpen : bool
}.

Definition getPersistedWorkspace s : Snapshot :=
  mkSnapshot 1 (denormalizeShapes (shapeState s)) (zoom s)
    (canvasOffset s) (isControlsPanelOpen s) (isShapeListOpen s).

(** [hydrate] given such a record: [normalizeShapes] reads
    [shape.id] of every element, which throws on [undefined] ([None]). *)
Definition hydrate_persisted (MIN_ZOOM MAX_ZOOM : Qc)
    (data : Snapshot) s : option WorkspaceState :=
  shapes ← mapM (λ o : option ShapeData, o) (w_shapes data);
  Some (hydrate MIN_ZOOM MAX_ZOOM
          (mkPartial (Some shapes) (Some (w_zoom data))
             (Some (w_canvasOffset data)) (Some (w_isControlsPanelOpen data))
             (Some (w_isShapeListOpen data)))
          s).

(** ** The form of the component ([useShapeManagement], the editor) *)

(** [v === null || v <= 0]. *)
Definition null_or_not_positive (v : option Qc) : bool :=
  match v with
  | None => true
  | Some q => bool_decide (q ≤ 0)%Qc
  end.

(** [validateDimensions] of the hook: the list of error messages. *)
Definition validateDimensions (width height : option Qc) : list string :=
  (if null_or_not_positive width
   then ["Width must be a positive number"] else [])
  ++ (if null_or_not_positive height
      then ["Height must be a positive number"] else []).


(** ** The pixel grid ([PixelGridLines.tsx]) *)






(** ** Persistence: saving, and loading with a stored selection *)

Module Save.
Import Storage.

Definition type_name (t : ShapeType) : string :=
  match t with
  | ellipse => "ellipse"
  | crescent => "crescent"
  | box => "box"
  end.

Definition point_json (p : Point) : json :=
  JObj [("x", JNum (x p)); ("y", JNum (y p))].

(** A shape of the store as the JSON value that [JSON.stringify] writes
    and [JSON.parse] reads back. *)
Definition shape_json (shape : ShapeData) : json :=
  JObj [("id", JNum (Qc_of_Z (id shape)));
        ("type", JStr (type_name (type shape)));
        ("width", JNum (width shape));
        ("height", JNum (height shape));
        ("baseColor", JStr (baseColor shape));
        ("opacity", JNum (opacity shape));
        ("position", point_json (position shape))].

(** An [undefined] element of an array is written as [null]. *)
Definition element_json (o : option ShapeData) : json :=
  from_option shape_json JNull o.

Section Save.
Variables MIN_ZOOM MAX_ZOOM : Qc.
Variable JSON_stringify : json → string.

(** The [payload] object of [saveWorkspace], as a JSON value. *)
Definition payload_json (state : Snapshot) : json :=
  JObj [("version", JNum VERSION);
        ("shapes", JArr (element_json <$> w_shapes state));
        ("zoom", JNum (clamp (w_zoom state) MIN_ZOOM MAX_ZOOM));
        ("canvasOffset", point_json (w_canvasOffset state));
        ("isControlsPanelOpen", JBool (w_isControlsPanelOpen state));
        ("isShapeListOpen", JBool (w_isShapeListOpen state))].

(** [saveWorkspace(state)]: the stored item afterwards.  Nothing is
    written without a window, or when [setItem] throws. *)
Definition saveWorkspace (windowDefined setItemThrows : bool)
    (state : Snapshot) (item : option string) : option string :=
  if negb windowDefined then item
  else if setItemThrows then item
  else Some (JSON_stringify (payload_json state)).
End Save.

(** A stored number as an id of the store, when it is an integer. *)
Definition integer_of (q : Qc) : option Z :=
  if decide (Qden q = 1%positive) then Some (Qnum q) else None.

Definition type_of_name (name : string) : option ShapeType :=
  if decide (name = "ellipse") then Some ellipse
  else if decide (name = "crescent") then Some crescent
  else if decide (name = "box") then Some box
  else None.

(** A parsed value read as the [ShapeData] it is declared to be by
    [isValidShape].  A value whose id is not an integer has no counterpart
    among the records of the store, whose ids are integers. *)
Definition shape_of_json (v : json) : option ShapeData :=
  i ← as_number (get v "id") ≫= integer_of;
  t ← as_string (get v "type") ≫= type_of_name;
  w ← as_number (get v "width");
  h ← as_number (get v "height");
  color ← as_string (get v "baseColor");
  o ← as_number (get v "opacity");
  p ← get v "position";
  px ← as_number (get p "x");
  py ← as_number (get p "y");
  Some (mkShape i t w h color o (mkPoint px py)).

Section Restore.
Variables MIN_ZOOM MAX_ZOOM : Qc.
Variable JSON_parse : string → option json.

(** The first step of [initWorkspacePersistence]: hydrate the store from
    what [loadWorkspace] returns, if it returns anything. *)
Definition initWorkspacePersistence_hydrate (windowDefined : bool)
    (item : Lookup) (s : WorkspaceState) : option WorkspaceState :=
  match loadWorkspace MIN_ZOOM MAX_ZOOM JSON_parse windowDefined item with
  | None => Some s
  | Some persisted =>
      shapes ← mapM shape_of_json (p_shapes persisted);
      Some (hydrate MIN_ZOOM MAX_ZOOM
              (mkPartial (Some shapes) (Some (p_zoom persisted))
                 (Some (p_canvasOffset persisted))
                 (Some (p_isControlsPanelOpen persisted))
                 (Some (p_isShapeListOpen persisted)))
              s)
  end.
End Restore.
End Save.

(** The earlier [workspace-storage.ts], which also stores the
    selection. *)
Module StorageWithSelection.
Import Storage.

Definition first_id (validShapes : list json) : option Qc :=
  v ← head validShapes; as_number (get v "id").

(** The selection returned by the earlier [loadWorkspace]: the stored one
    if a valid shape has that id, else the id of the first valid shape,
    else none. *)
Definition restored_selection (parsed : json) (validShapes : list json)
  : option Qc :=
  match as_number (get parsed "selectedShapeId") with
  | Some sel =>
      if existsb (λ v, bool_decide (as_number (get v "id") = Some sel))
           validShapes
      then Some sel
      else first_id validShapes
  | None => first_id validShapes
  end.

Section Load.
Variables MIN_ZOOM MAX_ZOOM : Qc.
Variable JSON_parse : string → option json.

(** The earlier [loadWorkspace]: its record is the one of the later
    version, and the selection. *)
Definition loadWorkspace (windowDefined : bool) (item : Lookup)
  : option (PersistedWorkspace * option Qc) :=
  if negb windowDefined then None
  else
    match item with
    | Throws => None
    | Returns None => None
    | Returns (Some stored) =>
        if decide (stored = "") then None
        else
          parsed ← JSON_parse stored;
          r ← validate MIN_ZOOM MAX_ZOOM parsed;
          Some (r, restored_selection parsed (p_shapes r))
    end.
End Load.
End StorageWithSelection.

(** ** Further predicates on collections *)

(** Every entity is stored under its own id. *)
Definition keyed (n : NormalizedShapes) : Prop :=
  ∀ i e, entities n !! i = Some e → id e = i.


(** The shape lies within the bounding box with the corners [(x0, y0)]
    and [(x1, y1)]. *)
Definition within (x0 y0 x1 y1 : Qc) (e : ShapeData) : Prop :=
  (x0 ≤ x (position e))%Qc ∧ (x (position e) + width e ≤ x1)%Qc
  ∧ (y0 ≤ y (position e))%Qc ∧ (y (position e) + height e ≤ y1)%Qc.

(** A shape that [isValidShape] accepts when it is read back: positive
    width and height, opacity between 0 and 1. *)
Definition persistable (e : ShapeData) : bool :=
  bool_decide (0 < width e)%Qc && bool_decide (0 < height e)%Qc
  && bool_decide (0 ≤ opacity e)%Qc && bool_decide (opacity e ≤ 1)%Qc.

(** * Properties *)

(** ** Arrays *)

Lemma relativeStart_range len start :
  0 ≤ len → 0 ≤ relativeStart len start ≤ len.
Proof. unfold relativeStart. case_decide; lia. Qed.

Lemma relativeStart_in_range len start :
  0 ≤ start ≤ len → relativeStart len start = start.
Proof. unfold relativeStart. case_decide; lia. Qed.

Lemma indexOf_spec l v :
  indexOf l v = -1 ∧ v ∉ l
  ∨ 0 ≤ indexOf l v < Z.of_nat (length l)
    ∧ l !! Z.to_nat (indexOf l v) = Some v.
Proof.
  induction l as [|a l IH]; simpl.
  - left. split; [done | apply not_elem_of_nil].
  - case_decide as Ha.
    + right. subst. split; [lia | done].
    + destruct IH as [[-> Hni] | [Hr Hl]].
      * left. rewrite decide_True by done. split; [done |].
        rewrite not_elem_of_cons. done.
      * right. rewrite decide_False by lia. split; [lia |].
        replace (Z.to_nat (1 + indexOf l v))
          with (S (Z.to_nat (indexOf l v))) by lia.
        done.
Qed.

(** Removing one element at an index that holds one. *)
Lemma splice_remove {A} (l : list A) (k : Z) (v : A) :
  0 ≤ k → l !! Z.to_nat k = Some v →
  splice l k 1 [] = ([v], delete (Z.to_nat k) l).
Proof.
  intros Hk Hl. pose proof (lookup_lt_Some _ _ _ Hl) as Hlt.
  unfold splice. rewrite relativeStart_in_range by lia.
  replace (Z.min (Z.max 1 0) (Z.of_nat (length l) - k)) with 1 by lia.
  f_equal.
  - rewrite (drop_S _ _ _ Hl). done.
  - simpl. replace (Z.to_nat (k + 1)) with (S (Z.to_nat k)) by lia.
    symmetry. apply delete_take_drop.
Qed.

(** Inserting one element, wherever the start index points. *)
Lemma splice_insert {A} (l : list A) (k : Z) (v : A) :
  (splice l k 0 [v]).2 ≡ₚ v :: l.
Proof.
  pose proof (relativeStart_range (Z.of_nat (length l)) k ltac:(lia)) as Hr.
  unfold splice; simpl.
  replace (Z.min (Z.max 0 0)
             (Z.of_nat (length l) - relativeStart (Z.of_nat (length l)) k))
    with 0 by lia.
  rewrite Z.add_0_r.
  rewrite <- Permutation_middle. constructor.
  by rewrite take_drop.
Qed.

Lemma reinsert_perm direction len k v l :
  reinsert direction len k v l ≡ₚ v :: l.
Proof.
  unfold reinsert.
  repeat case_decide; try apply splice_insert; try done.
  by rewrite Permutation_app_comm.
Qed.

Lemma moveShapeLayer_ids_perm v direction l l' :
  moveShapeLayer_ids v direction l = Some l' → l' ≡ₚ l.
Proof.
  unfold moveShapeLayer_ids. intros H.
  destruct (indexOf_spec l v) as [[Hi _] | [Hr Hl]].
  - rewrite decide_True in H by done. done.
  - rewrite decide_False in H by lia.
    rewrite (splice_remove l _ v) in H by (lia || done).
    injection H as <-. simpl.
    rewrite reinsert_perm. symmetry. by apply delete_Permutation.
Qed.

Lemma reorderShapes_ids_perm fromIndex toIndex l l' :
  reorderShapes_ids fromIndex toIndex l = Some l' → l' ≡ₚ l.
Proof.
  unfold reorderShapes_ids, splice. simpl.
  pose proof (relativeStart_range (Z.of_nat (length l)) fromIndex
                ltac:(lia)) as Hr.
  set (k := relativeStart (Z.of_nat (length l)) fromIndex) in *.
  destruct (decide (k = Z.of_nat (length l))) as [Heq | Hne].
  - replace (Z.min (Z.max 1 0) (Z.of_nat (length l) - k)) with 0 by lia.
    simpl. done.
  - replace (Z.min (Z.max 1 0) (Z.of_nat (length l) - k)) with 1 by lia.
    destruct (lookup_lt_is_Some_2 l (Z.to_nat k) ltac:(lia)) as [v Hv].
    rewrite (drop_S _ _ _ Hv). simpl. intros [= <-].
    pose proof (splice_insert (take (Z.to_nat k) l ++ drop (Z.to_nat (k + 1)) l)
                  toIndex v) as Hp.
    unfold splice in Hp. simpl in Hp. rewrite Hp.
    replace (Z.to_nat (k + 1)) with (S (Z.to_nat k)) by lia.
    rewrite <- delete_take_drop. symmetry. by apply delete_Permutation.
Qed.

(** With indices in range, [reorderShapes] does return an order. *)
Lemma reorderShapes_ids_in_range fromIndex toIndex l :
  0 ≤ fromIndex < Z.of_nat (length l) →
  is_Some (reorderShapes_ids fromIndex toIndex l).
Proof.
  intros Hr. destruct (lookup_lt_is_Some_2 l (Z.to_nat fromIndex)
                         ltac:(lia)) as [v Hv].
  unfold reorderShapes_ids. rewrite (splice_remove l fromIndex v) by (lia || done).
  by eexists.
Qed.

(** The layering of a three-element order: the first id brought to the
    front, then the middle id of the result sent to the back; one step
    forward and one step backward; an unknown direction. *)
Lemma moveShapeLayer_ids_examples :
  moveShapeLayer_ids 1 "toFront" [1; 2; 3] = Some [2; 3; 1]
  ∧ moveShapeLayer_ids 3 "toBack" [2; 3; 1] = Some [3; 2; 1]
  ∧ moveShapeLayer_ids 1 "forward" [1; 2; 3] = Some [2; 1; 3]
  ∧ moveShapeLayer_ids 3 "forward" [1; 2; 3] = Some [1; 2; 3]
  ∧ moveShapeLayer_ids 3 "backward" [1; 2; 3] = Some [1; 3; 2]
  ∧ moveShapeLayer_ids 1 "backward" [1; 2; 3] = Some [1; 2; 3]
  ∧ moveShapeLayer_ids 2 "sideways" [1; 2; 3] = Some [1; 2; 3]
  ∧ moveShapeLayer_ids 4 "toFront" [1; 2; 3] = None.
Proof. split_and!; reflexivity. Qed.

(** ** The collection invariant *)

Lemma same_ids_perm l l' m :
  l' ≡ₚ l → same_ids (mkShapes l m) → same_ids (mkShapes l' m).
Proof. intros Hp H i. simpl. rewrite Hp. apply H. Qed.

Lemma length_ids_size n :
  NoDup (ids n) → same_ids n → length (ids n) = size (entities n).
Proof.
  intros Hnd Hs.
  rewrite <- size_dom, <- (size_list_to_set (C := gset Z)) by done.
  f_equal. apply set_eq. intros i.
  rewrite elem_of_list_to_set, elem_of_dom. apply Hs.
Qed.

Lemma collection_ok_iff n : collection_ok n ↔ NoDup (ids n) ∧ same_ids n.
Proof.
  unfold collection_ok. split; [tauto |].
  intros [? ?]. auto using length_ids_size.
Qed.

Lemma normalizeShapes_from acc shapes :
  let n :=
    foldl (λ acc shape,
             mkShapes (ids acc ++ [id shape])
                      (<[id shape := shape]> (entities acc)))
          acc shapes in
  ids n = ids acc ++ (id <$> shapes) ∧ (same_ids acc → same_ids n).
Proof.
  revert acc. induction shapes as [|sh shapes IH]; intros acc; simpl.
  - rewrite app_nil_r. done.
  - destruct (IH (mkShapes (ids acc ++ [id sh])
                    (<[id sh := sh]> (entities acc)))) as [Hids Hsame].
    simpl in *. split.
    + rewrite Hids, <- app_assoc. done.
    + intros Hacc. apply Hsame. intros i. simpl.
      rewrite elem_of_app, list_elem_of_singleton, lookup_insert_is_Some.
      specialize (Hacc i). destruct (decide (id sh = i)); naive_solver.
Qed.

Lemma normalizeShapes_ids shapes :
  ids (normalizeShapes shapes) = id <$> shapes.
Proof. apply (normalizeShapes_from (mkShapes [] ∅)). Qed.

Lemma normalizeShapes_same_ids shapes : same_ids (normalizeShapes shapes).
Proof.
  apply (normalizeShapes_from (mkShapes [] ∅)).
  intros i. simpl. rewrite lookup_empty, elem_of_nil.
  split; [done | by intros [? ?]].
Qed.

Lemma same_ids_insert_present n i sh :
  is_Some (entities n !! i) → same_ids n →
  same_ids (mkShapes (ids n) (<[i := sh]> (entities n))).
Proof.
  intros Hi Hs j. simpl. rewrite lookup_insert_is_Some.
  specialize (Hs j). destruct (decide (i = j)); naive_solver.
Qed.

Lemma same_ids_append n i sh :
  same_ids n → same_ids (mkShapes (ids n ++ [i]) (<[i := sh]> (entities n))).
Proof.
  intros Hs j. simpl.
  rewrite elem_of_app, list_elem_of_singleton, lookup_insert_is_Some.
  specialize (Hs j). destruct (decide (i = j)); naive_solver.
Qed.

Lemma same_ids_remove n i :
  same_ids n →
  same_ids (mkShapes (filter (λ shapeId, shapeId ≠ i) (ids n))
                     (delete i (entities n))).
Proof.
  intros Hs j. simpl. rewrite list_elem_of_filter, lookup_delete_is_Some.
  specialize (Hs j). naive_solver.
Qed.

Section Invariant.
Variables MIN_ZOOM MAX_ZOOM : Qc.

(** What one call does to the collection: nothing, or one of the six
    changes below. *)
Lemma dispatch_same_ids a s s' :
  dispatch MIN_ZOOM MAX_ZOOM a s = Some s' →
  same_ids (shapeState s) → same_ids (shapeState s').
Proof.
  intros Hd Hs. destruct a; simpl in Hd; simplify_eq; try done.
  - unfold addShape. destruct (valid_dimensions _ _) as [[w h]|]; [|done].
    apply same_ids_append, Hs.
  - unfold updateSelectedShape.
    destruct (truthy_id _) as [sel|]; [|done].
    destruct (valid_dimensions _ _) as [[w h]|]; [|done]. simpl.
    destruct (entities (shapeState s) !! sel) eqn:He; [|done].
    apply same_ids_insert_present; [by rewrite He | done].
  - apply same_ids_remove, Hs.
  - unfold moveShape.
    destruct (entities (shapeState s) !! i) eqn:He; [|done].
    apply same_ids_insert_present; [by rewrite He | done].
  - unfold moveShapeLayer.
    destruct (moveShapeLayer_ids _ _ _) as [l'|] eqn:Hl; [|done].
    apply moveShapeLayer_ids_perm in Hl. simpl.
    eapply same_ids_perm; [done |]. by destruct (shapeState s).
  - unfold reorderShapes in Hd.
    destruct (reorderShapes_ids _ _ _) as [l'|] eqn:Hl; simplify_eq/=.
    apply reorderShapes_ids_perm in Hl.
    eapply same_ids_perm; [done |]. by destruct (shapeState s).
  - unfold setSelectedShapeId. by destruct (_ ≫= _).
  - destruct (resetView _ _ _ _ s) as [s''|] eqn:Hr; [|done].
    unfold resetView in Hr. case_decide; simplify_eq/=; [|done].
    destruct (boundingBox _ _); simplify_eq/=.
    by destruct (fit _ _ _ _ _); simplify_eq/=.
  - apply normalizeShapes_same_ids.
Qed.

Lemma dispatch_NoDup a s s' :
  unique a s → dispatch MIN_ZOOM MAX_ZOOM a s = Some s' →
  NoDup (ids (shapeState s)) → NoDup (ids (shapeState s')).
Proof.
  intros Hu Hd Hs. destruct a; simpl in Hd, Hu; simplify_eq; try done.
  - unfold addShape. destruct (valid_dimensions _ _) as [[w h]|]; [|done].
    simpl. apply NoDup_app. split_and!; [done | | apply NoDup_singleton].
    intros j Hj ->%list_elem_of_singleton. done.
  - unfold updateSelectedShape.
    destruct (truthy_id _) as [sel|]; [|done].
    destruct (valid_dimensions _ _) as [[w h]|]; [|done]. simpl.
    by destruct (entities (shapeState s) !! sel).
  - simpl. by apply NoDup_filter.
  - unfold moveShape. by destruct (entities (shapeState s) !! i).
  - unfold moveShapeLayer.
    destruct (moveShapeLayer_ids _ _ _) as [l'|] eqn:Hl; [|done].
    apply moveShapeLayer_ids_perm in Hl. simpl. by rewrite Hl.
  - unfold reorderShapes in Hd.
    destruct (reorderShapes_ids _ _ _) as [l'|] eqn:Hl; simplify_eq/=.
    apply reorderShapes_ids_perm in Hl. by rewrite Hl.
  - unfold setSelectedShapeId. by destruct (_ ≫= _).
  - destruct (resetView _ _ _ _ s) as [s''|] eqn:Hr; [|done].
    unfold resetView in Hr. case_decide; simplify_eq/=; [|done].
    destruct (boundingBox _ _); simplify_eq/=.
    by destruct (fit _ _ _ _ _); simplify_eq/=.
  - simpl. by rewrite normalizeShapes_ids.
Qed.

Lemma reachable_unique_reachable s :
  reachable_unique MIN_ZOOM MAX_ZOOM s → reachable MIN_ZOOM MAX_ZOOM s.
Proof. induction 1; eauto using reachable. Qed.

Lemma reachable_same_ids s :
  reachable MIN_ZOOM MAX_ZOOM s → same_ids (shapeState s).
Proof.
  induction 1 as [|a s s' _ IH Hd].
  - intros i. simpl. rewrite lookup_empty, elem_of_nil.
    split; [done | by intros [? ?]].
  - eauto using dispatch_same_ids.
Qed.

Lemma reachable_unique_NoDup s :
  reachable_unique MIN_ZOOM MAX_ZOOM s → NoDup (ids (shapeState s)).
Proof.
  induction 1 as [|a s s' _ IH Hu Hd].
  - apply NoDup_nil_2.
  - eauto using dispatch_NoDup.
Qed.
End Invariant.

(** C1 (as amended): in every reachable state the ids of the order are
    exactly the keys of the entity mapping.  The order is free of
    duplicates, and as long as the mapping, in every state reached by calls
    that bring a new id each time: every [addShape] reads a clock value
    that is not an id of the collection, and every [hydrate] is given
    shapes with pairwise different ids. *)
Theorem C1_collection_invariant MIN_ZOOM MAX_ZOOM s :
  reachable MIN_ZOOM MAX_ZOOM s →
  same_ids (shapeState s)
  ∧ (reachable_unique MIN_ZOOM MAX_ZOOM s → collection_ok (shapeState s)).
Proof.
  intros Hr. split; [by eapply reachable_same_ids |].
  intros Hu. apply collection_ok_iff.
  eauto using reachable_unique_NoDup, reachable_same_ids.
Qed.

Lemma two_shapes_reachable_unique : reachable_unique lo hi two_shapes.
Proof.
  eapply (reachable_unique_step lo hi (AddShape 1001 origin));
    [eapply (reachable_unique_step lo hi (AddShape 1000 origin));
       [apply reachable_unique_init | | reflexivity] | | reflexivity].
  - simpl. apply not_elem_of_nil.
  - vm_compute. intros H%list_elem_of_singleton. discriminate.
Defined.

Lemma C1_collection_invariant_witness :
  same_ids (shapeState two_shapes) ∧ collection_ok (shapeState two_shapes).
Proof.
  pose proof two_shapes_reachable_unique as Hu.
  destruct (C1_collection_invariant lo hi two_shapes
              (reachable_unique_reachable lo hi _ Hu)) as [H1 H2].
  split; [exact H1 | exact (H2 Hu)].
Defined.

(** C1, as stated, fails: two [addShape] calls in one millisecond, or a
    [hydrate] of stored shapes that share an id, put an id twice into the
    order, which is then longer than the mapping. *)
Lemma C1_counterexample :
  (reachable lo hi same_tick
   ∧ ids (shapeState same_tick) = [1000; 1000]
   ∧ ¬ NoDup (ids (shapeState same_tick))
   ∧ length (ids (shapeState same_tick)) = 2%nat
   ∧ size (entities (shapeState same_tick)) = 1%nat)
  ∧ (reachable lo hi twice_stored
     ∧ ids (shapeState twice_stored) = [7; 7]
     ∧ ¬ NoDup (ids (shapeState twice_stored))
     ∧ length (ids (shapeState twice_stored)) = 2%nat
     ∧ size (entities (shapeState twice_stored)) = 1%nat).
Proof.
  split; split_and!; try (vm_compute; reflexivity).
  - eapply (reachable_step lo hi (AddShape 1000 origin));
      [eapply (reachable_step lo hi (AddShape 1000 origin));
         [apply reachable_init | reflexivity] | reflexivity].
  - intros H. apply NoDup_cons_1_1 in H. apply H. vm_compute. left.
  - eapply (reachable_step lo hi (Hydrate _));
      [apply reachable_init | reflexivity].
  - intros H. apply NoDup_cons_1_1 in H. apply H. vm_compute. left.
Qed.

(** ** The zoom bounds *)

Lemma clamp_bounds (value min max : Qc) :
  (min ≤ max)%Qc → (min ≤ clamp value min max ≤ max)%Qc.
Proof.
  intros Hmm. unfold clamp, Qc_max, Qc_min.
  repeat case_decide; split; try done;
    auto using Qclt_le_weak, Qcnot_le_lt.
Qed.

Section ZoomBounds.
Variables MIN_ZOOM MAX_ZOOM : Qc.
(** The default zoom, 10, lies within the bounds. *)
Hypothesis default_in_bounds : (MIN_ZOOM ≤ Qc_of_Z 10 ≤ MAX_ZOOM)%Qc.

Lemma bounds_ordered : (MIN_ZOOM ≤ MAX_ZOOM)%Qc.
Proof. destruct default_in_bounds. by etrans. Qed.

Lemma fit_bounds vw vh b :
  (MIN_ZOOM ≤ (fit MIN_ZOOM MAX_ZOOM vw vh b).1 ≤ MAX_ZOOM)%Qc.
Proof.
  unfold fit.
  destruct (minX b), (minY b), (maxX b), (maxY b); try done.
  case_decide; [|done]. simpl. apply clamp_bounds, bounds_ordered.
Qed.

Lemma resetView_bounds vw vh s s' :
  resetView MIN_ZOOM MAX_ZOOM vw vh s = Some s' →
  zoom_in_bounds MIN_ZOOM MAX_ZOOM s'.
Proof.
  unfold resetView, zoom_in_bounds. intros H.
  case_decide; simplify_eq/=; [|done].
  destruct (boundingBox _ _) as [b|]; simplify_eq/=.
  pose proof (fit_bounds vw vh b) as Hb.
  destruct (fit _ _ _ _ _); simplify_eq/=. done.
Qed.

Lemma dispatch_zoom a s s' :
  dispatch MIN_ZOOM MAX_ZOOM a s = Some s' →
  zoom_in_bounds MIN_ZOOM MAX_ZOOM s → zoom_in_bounds MIN_ZOOM MAX_ZOOM s'.
Proof.
  unfold zoom_in_bounds.
  intros Hd Hs. destruct a; simpl in Hd; simplify_eq; try done.
  - unfold addShape. by destruct (valid_dimensions _ _) as [[w h]|].
  - unfold updateSelectedShape.
    destruct (truthy_id _) as [sel|]; [|done].
    destruct (valid_dimensions _ _) as [[w h]|]; [|done]. simpl.
    by destruct (entities (shapeState s) !! sel).
  - unfold moveShape. by destruct (entities (shapeState s) !! i).
  - unfold moveShapeLayer. by destruct (moveShapeLayer_ids _ _ _).
  - unfold reorderShapes in Hd.
    by destruct (reorderShapes_ids _ _ _); simplify_eq/=.
  - unfold setSelectedShapeId. by destruct (_ ≫= _).
  - apply clamp_bounds, bounds_ordered.
  - apply clamp_bounds, bounds_ordered.
  - destruct (resetView _ _ _ _ s) as [s''|] eqn:Hr; [|done].
    by apply resetView_bounds in Hr.
  - apply clamp_bounds, bounds_ordered.
Qed.

End ZoomBounds.

Lemma Qc_le_concrete (a b : Qc) : Qle_bool (this a) (this b) = true → (a ≤ b)%Qc.
Proof. unfold Qcle. apply Qle_bool_imp_le. Qed.

Lemma lo_hi_bounds : (lo ≤ Qc_of_Z 10 ≤ hi)%Qc.
Proof. split; apply Qc_le_concrete; reflexivity. Defined.

(** The fit of one 10 by 10 shape at the origin into a 300 by 300 viewport:
    zoom (300 - 100) / 10 = 20, and the centre of the shape, (5, 5), at
    the centre of the viewport. *)
Lemma fitted_view :
  zoom <$> fitted = Some (Qc_of_Z 20)
  ∧ canvasOffset <$> fitted = Some (mkPoint (Qc_of_Z 50) (Qc_of_Z 50)).
Proof.
  split.
  - vm_compute. f_equal. apply Qc_is_canon. reflexivity.
  - vm_compute. do 2 f_equal; apply Qc_is_canon; reflexivity.
Qed.


(** ** Editing the selected shape *)

Lemma valid_dimensions_positive (w h : Qc) :
  (0 < w)%Qc → (0 < h)%Qc → valid_dimensions (Some w) (Some h) = Some (w, h).
Proof.
  intros Hw Hh. unfold valid_dimensions.
  rewrite !decide_False by (by apply Qclt_not_le). done.
Qed.

(** C3 (as amended): when an entity is selected under a non-zero id and
    the pending width and height are positive, [updateSelectedShape]
    returns true; the width, height, base colour and opacity of the
    selected entity are replaced by the pending values, while its kind, id
    and position stay as they were; the other entities and the order are
    unchanged; afterwards nothing is selected and the draft holds the
    defaults. *)
Theorem C3_update_selected_shape s sel e w h :
  selectedShapeId s = Some sel → sel ≠ 0 →
  entities (shapeState s) !! sel = Some e →
  formWidth s = Some w → formHeight s = Some h →
  (0 < w)%Qc → (0 < h)%Qc →
  ∃ s' e',
    updateSelectedShape s = (true, s')
    ∧ entities (shapeState s') !! sel = Some e'
    ∧ width e' = w ∧ height e' = h
    ∧ baseColor e' = formBaseColor s ∧ opacity e' = formOpacity s
    ∧ type e' = type e ∧ id e' = id e ∧ position e' = position e
    ∧ (∀ j, j ≠ sel →
         entities (shapeState s') !! j = entities (shapeState s) !! j)
    ∧ ids (shapeState s') = ids (shapeState s)
    ∧ draft_is_default s'.
Proof.
  intros Hsel Hnz He Hw Hh Hwpos Hhpos. do 2 eexists.
  unfold updateSelectedShape.
  rewrite Hsel, Hw, Hh, valid_dimensions_positive by done.
  unfold truthy_id. rewrite decide_False by done. rewrite He.
  split; [reflexivity |]. simpl.
  split; [apply lookup_insert_eq |].
  split_and!; try done.
  intros j Hj. by apply lookup_insert_ne.
Qed.

Lemma Qc_lt_concrete (a b : Qc) :
  Qle_bool (this b) (this a) = false → (a < b)%Qc.
Proof.
  intros H. apply Qcnot_le_lt. intros Hle.
  unfold Qcle in Hle. apply Qle_bool_iff in Hle. congruence.
Qed.

Lemma C3_update_selected_shape_witness :
  ∃ s' e',
    updateSelectedShape editing = (true, s')
    ∧ entities (shapeState s') !! 5 = Some e'
    ∧ width e' = Qc_of_Z 3 ∧ height e' = Qc_of_Z 4
    ∧ baseColor e' = formBaseColor editing
    ∧ opacity e' = formOpacity editing
    ∧ type e' = type stored_box ∧ id e' = id stored_box
    ∧ position e' = position stored_box
    ∧ (∀ j, j ≠ 5 →
         entities (shapeState s') !! j = entities (shapeState editing) !! j)
    ∧ ids (shapeState s') = ids (shapeState editing)
    ∧ draft_is_default s'.
Proof.
  apply (C3_update_selected_shape editing 5 stored_box
           (Qc_of_Z 3) (Qc_of_Z 4)).
  - reflexivity.
  - discriminate.
  - reflexivity.
  - reflexivity.
  - reflexivity.
  - apply Qc_lt_concrete. reflexivity.
  - apply Qc_lt_concrete. reflexivity.
Defined.

(** C3, as stated, fails on the kind: the pending kind [crescent] is not
    written, the updated entity is still a [box].  And a selection under
    the id 0 is no selection for [updateSelectedShape], which returns
    false although the id resolves and the dimensions are positive. *)
Lemma C3_counterexample :
  ((updateSelectedShape editing).1 = true
   ∧ currentShapeType editing = crescent
   ∧ type <$> entities (shapeState (updateSelectedShape editing).2) !! 5
       = Some box)
  ∧ (selectedShapeId zero_selected = Some 0
     ∧ is_Some (entities (shapeState zero_selected) !! 0)
     ∧ valid_dimensions (formWidth zero_selected) (formHeight zero_selected)
         = Some (Qc_of_Z 8, Qc_of_Z 8)
     ∧ updateSelectedShape zero_selected = (false, zero_selected)).
Proof.
  split; split_and!; try reflexivity.
  by eexists.
Qed.

(** The store itself never leaves a selection dangling. *)
Lemma dispatch_selection_resolves MIN_ZOOM MAX_ZOOM a s s' :
  dispatch MIN_ZOOM MAX_ZOOM a s = Some s' →
  same_ids (shapeState s) → selection_resolves s → selection_resolves s'.
Proof.
  intros Hd Hsame Hs sel. destruct a; simpl in Hd; simplify_eq;
    try (by apply Hs); try (by simpl).
  - unfold addShape. by destruct (valid_dimensions _ _) as [[w h]|]; [|apply Hs].
  - unfold updateSelectedShape.
    destruct (truthy_id _) as [sel'|]; [|apply Hs].
    destruct (valid_dimensions _ _) as [[w h]|]; [|apply Hs]. simpl.
    by destruct (entities (shapeState s) !! sel'); [|apply Hs].
  - unfold removeShape. simpl. case_decide as Hsel.
    + intros Hhd%head_Some_elem_of.
      by apply (same_ids_remove (shapeState s) i Hsame).
    + intros Hsel'. rewrite lookup_delete_ne by congruence. by apply Hs.
  - unfold moveShape.
    destruct (entities (shapeState s) !! i) eqn:He; [|apply Hs].
    simpl. intros Hsel. rewrite lookup_insert_is_Some.
    destruct (decide (i = sel)); [by left | right]. split; [done | by apply Hs].
  - unfold moveShapeLayer. destruct (moveShapeLayer_ids _ _ _); apply Hs.
  - unfold reorderShapes in Hd.
    destruct (reorderShapes_ids _ _ _); simplify_eq/=. apply Hs.
  - unfold setSelectedShapeId.
    destruct (_ ≫= _) as [shape|] eqn:Hshape; simpl; [|done].
    intros ->. simpl in Hshape. case_decide; [done |].
    simpl in Hshape. by rewrite Hshape.
  - destruct (resetView _ _ _ _ s) as [s''|] eqn:Hr; [|apply Hs].
    unfold resetView in Hr. case_decide; simplify_eq/=; [|apply Hs].
    destruct (boundingBox _ _); simplify_eq/=.
    destruct (fit _ _ _ _ _); simplify_eq/=. apply Hs.
Qed.

Lemma reachable_selection_resolves MIN_ZOOM MAX_ZOOM s :
  reachable MIN_ZOOM MAX_ZOOM s → selection_resolves s.
Proof.
  induction 1 as [|a s s' Hr IH Hd]; [done |].
  eauto using dispatch_selection_resolves, reachable_same_ids.
Qed.




(** ** Selecting *)

(** C7 (as amended): [setSelectedShapeId] with [null], with 0 or with an
    id that refers to no entity clears the selection and leaves the draft
    (and everything else) as it is; with a non-zero id that refers to an
    entity it selects that id and copies the width, height, base colour,
    opacity and kind of the entity into the draft. *)
Theorem C7_select s :
  (∀ i, (i = None ∨ i = Some 0
         ∨ ∃ i', i = Some i' ∧ entities (shapeState s) !! i' = None) →
        setSelectedShapeId i s = set_selectedShapeId None s)
  ∧ (∀ i e, i ≠ 0 → entities (shapeState s) !! i = Some e →
            let s' := setSelectedShapeId (Some i) s in
            selectedShapeId s' = Some i
            ∧ formWidth s' = Some (width e)
            ∧ formHeight s' = Some (height e)
            ∧ formBaseColor s' = baseColor e
            ∧ formOpacity s' = opacity e
            ∧ currentShapeType s' = type e
            ∧ same_outside_draft s s').
Proof.
  unfold setSelectedShapeId. split.
  - intros i [-> | [-> | (i' & -> & He)]]; try done.
    simpl. case_decide; [done |]. simpl. by rewrite He.
  - intros i e Hnz He. simpl. rewrite decide_False by done. simpl.
    rewrite He. done.
Qed.

Lemma C7_select_witness :
  setSelectedShapeId (Some 9) editing = set_selectedShapeId None editing
  ∧ selectedShapeId (setSelectedShapeId (Some 5) editing) = Some 5
  ∧ formWidth (setSelectedShapeId (Some 5) editing) = Some (Qc_of_Z 8)
  ∧ currentShapeType (setSelectedShapeId (Some 5) editing) = box.
Proof.
  destruct (C7_select editing) as [Hnone Hsome].
  split.
  - apply Hnone. right. right. exists 9. split; reflexivity.
  - destruct (Hsome 5 stored_box) as (H1 & H2 & _ & _ & _ & H6 & _).
    + discriminate.
    + reflexivity.
    + split_and!; [exact H1 | exact H2 | exact H6].
Defined.

(** C7, as stated, fails on the draft: selecting nothing, or an id that
    refers to no entity, keeps the pending values of the form instead of
    resetting them to the creation defaults. *)
Lemma C7_counterexample :
  formWidth (setSelectedShapeId None editing) = Some (Qc_of_Z 3)
  ∧ formHeight (setSelectedShapeId None editing) = Some (Qc_of_Z 4)
  ∧ currentShapeType (setSelectedShapeId None editing) = crescent
  ∧ formBaseColor (setSelectedShapeId None editing) = "#FF0000"
  ∧ ¬ draft_is_default (setSelectedShapeId None editing)
  ∧ ¬ draft_is_default (setSelectedShapeId (Some 9) editing).
Proof.
  split_and!; try reflexivity.
  - intros (_ & H & _). discriminate H.
  - intros (_ & H & _). discriminate H.
Qed.

(** ** Fitting the view to the content *)

(** C5 (as amended): when the collection is not empty and the bounding box
    of its shapes has a width or a height that is not positive,
    [resetView] writes the default view, zoom 10 and offset (0, 0), as it
    does for an empty collection; nothing but the view changes. *)
Theorem C5_reset_view_degenerate MIN_ZOOM MAX_ZOOM vw vh s x0 y0 x1 y1 :
  ids (shapeState s) ≠ [] →
  boundingBox (mkBounds None None None None)
    (denormalizeShapes (shapeState s))
    = Some (mkBounds (Some x0) (Some y0) (Some x1) (Some y1)) →
  (x1 - x0 ≤ 0 ∨ y1 - y0 ≤ 0)%Qc →
  resetView MIN_ZOOM MAX_ZOOM vw vh s
    = Some (set_canvasOffset (mkPoint 0 0)%Qc (set_zoom (Qc_of_Z 10) s)).
Proof.
  intros Hne Hb Hdeg. unfold resetView.
  rewrite decide_True.
  - rewrite Hb. simpl. unfold fit. simpl.
    rewrite decide_False; [done |].
    intros [Hw Hh]. destruct Hdeg as [Hle | Hle];
      [exact (Qclt_not_le _ _ Hw Hle) | exact (Qclt_not_le _ _ Hh Hle)].
  - unfold denormalizeShapes. rewrite length_fmap.
    destruct (ids (shapeState s)); [done | simpl; lia].
Qed.

Lemma C5_reset_view_degenerate_witness :
  resetView lo hi (Qc_of_Z 300) (Qc_of_Z 300) flat_content
  = Some (set_canvasOffset (mkPoint 0 0)%Qc
            (set_zoom (Qc_of_Z 10) flat_content)).
Proof.
  apply (C5_reset_view_degenerate lo hi _ _ flat_content 0 0 0 0)%Qc.
  - discriminate.
  - unfold flat_content, denormalizeShapes. simpl.
    unfold extend, min_acc, max_acc. simpl.
    do 2 f_equal; f_equal; apply Qc_is_canon; reflexivity.
  - left. apply Qc_le_concrete. reflexivity.
Defined.

(** C5, as stated, fails: on a collection whose bounding box has no
    extent, [resetView] replaces the zoom 20 by 10 and the offset (5, 5)
    by (0, 0). *)
Lemma C5_counterexample :
  zoom flat_content = Qc_of_Z 20
  ∧ canvasOffset flat_content = mkPoint (Qc_of_Z 5) (Qc_of_Z 5)
  ∧ ∃ s', resetView lo hi (Qc_of_Z 300) (Qc_of_Z 300) flat_content = Some s'
          ∧ zoom s' = Qc_of_Z 10
          ∧ canvasOffset s' = mkPoint 0%Qc 0%Qc
          ∧ zoom s' ≠ zoom flat_content
          ∧ canvasOffset s' ≠ canvasOffset flat_content.
Proof.
  split; [| split].
  - apply Qc_is_canon. reflexivity.
  - reflexivity.
  - eexists. split; [reflexivity |]. split_and!; try reflexivity.
    + intros H. apply (f_equal this) in H. vm_compute in H. discriminate H.
    + intros H. apply (f_equal (λ p, this (x p))) in H.
      vm_compute in H. discriminate H.
Qed.

(** ** The ids given to new shapes *)

Lemma addShape_success now position s s' :
  addShape now position s = (true, s') →
  ids (shapeState s') = ids (shapeState s) ++ [now]
  ∧ id <$> entities (shapeState s') !! now = Some now
  ∧ ∀ j, j ≠ now →
         entities (shapeState s') !! j = entities (shapeState s) !! j.
Proof.
  unfold addShape.
  destruct (valid_dimensions _ _) as [[w h]|]; [|done].
  intros [= <-]. simpl. split_and!; [done | |].
  - by rewrite lookup_insert_eq.
  - intros j Hj. by apply lookup_insert_ne.
Qed.

(** C6 (as amended): the id generated by a successful [addShape] is the
    value read from the clock.  Hence the ids generated by two successful
    calls differ exactly when the two clock readings differ, and a new id
    differs from all the ids already in the collection exactly when the
    clock reading is not among them. *)
Theorem C6_generated_ids now1 now2 p1 p2 s1 s1' s2 s2' :
  addShape now1 p1 s1 = (true, s1') →
  addShape now2 p2 s2 = (true, s2') →
  generated_id s1' = Some now1
  ∧ generated_id s2' = Some now2
  ∧ (generated_id s1' ≠ generated_id s2' ↔ now1 ≠ now2)
  ∧ ((∀ j, j ∈ ids (shapeState s2) → Some j ≠ generated_id s2')
     ↔ now2 ∉ ids (shapeState s2)).
Proof.
  intros [H1 _]%addShape_success [H2 _]%addShape_success.
  unfold generated_id. rewrite H1, H2, !last_snoc.
  split_and!; [done | done | |].
  - split; [congruence |]. intros Hne [= ?]. done.
  - split.
    + intros Hall Hin. by apply (Hall now2).
    + intros Hni j Hj [= ->]. done.
Qed.

Lemma C6_generated_ids_witness :
  generated_id (addShape 1000 origin DEFAULT_STATE).2 = Some 1000
  ∧ generated_id two_shapes = Some 1001
  ∧ (generated_id (addShape 1000 origin DEFAULT_STATE).2
       ≠ generated_id two_shapes ↔ 1000 ≠ 1001)
  ∧ ((∀ j, j ∈ ids (shapeState (addShape 1000 origin DEFAULT_STATE).2) →
           Some j ≠ generated_id two_shapes)
     ↔ 1001 ∉ ids (shapeState (addShape 1000 origin DEFAULT_STATE).2)).
Proof.
  apply (C6_generated_ids 1000 1001 origin origin DEFAULT_STATE
           (addShape 1000 origin DEFAULT_STATE).2
           (addShape 1000 origin DEFAULT_STATE).2 two_shapes);
    reflexivity.
Defined.

(** C6, as stated, fails: two successful calls within one millisecond
    generate the same id, and the second id is already in the
    collection. *)
Lemma C6_counterexample :
  let first := addShape 1000 origin DEFAULT_STATE in
  let second := addShape 1000 origin first.2 in
  first.1 = true ∧ second.1 = true
  ∧ generated_id first.2 = Some 1000
  ∧ generated_id second.2 = Some 1000
  ∧ 1000 ∈ ids (shapeState first.2).
Proof.
  simpl. split_and!; try reflexivity.
  vm_compute. left.
Qed.

(** ** Loading the stored workspace *)

Module StorageFacts.
Import Storage.

Lemma is_number_true v : is_number v = true ↔ ∃ n, v = Some (JNum n).
Proof.
  unfold is_number. rewrite bool_decide_eq_true.
  destruct v as [[]|]; simpl; split;
    try (intros [? [=]]); try (intros [? ?]; done); eauto.
Qed.

Lemma is_string_true v : is_string v = true ↔ ∃ t, v = Some (JStr t).
Proof.
  unfold is_string. rewrite bool_decide_eq_true.
  destruct v as [[]|]; simpl; split;
    try (intros [? [=]]); try (intros [? ?]; done); eauto.
Qed.

Lemma isValidShape_schema v : isValidShape v = true ↔ shape_schema v.
Proof.
  unfold isValidShape, shape_schema. split.
  - destruct (negb _ || _); [done |].
    rewrite !andb_true_iff, !is_number_true, !is_string_true.
    intros H.
    destruct H as
      [[[[[[[[[[[[[[[i Hi] [k Hk]] Hkind] [w Hw]] Hwpos] [h Hh]] Hhpos] [c Hc]] [o Ho]] Ho0] Ho1] Hp] Hnn] [px Hpx]] [py Hpy]].
    rewrite Hk in Hkind. rewrite Hw in Hwpos. rewrite Hh in Hhpos.
    rewrite Ho in Ho0, Ho1. simpl in *.
    apply bool_decide_eq_true in Hkind, Hwpos, Hhpos, Ho0, Ho1.
    destruct (get v "position") as [p|] eqn:Hpos; [|done].
    simpl in Hpx, Hpy.
    exists i, k, w, h, c, o, p, px, py. split_and!; done.
  - intros (i & k & w & h & c & o & p & px & py & Hi & Hk & Hkind & Hw
            & Hwpos & Hh & Hhpos & Hc & Ho & [Ho0 Ho1] & Hp & Hpx & Hpy).
    destruct v; try done. simpl in *.
    rewrite Hi, Hk, Hw, Hh, Hc, Ho, Hp. simpl.
    rewrite Hpx, Hpy. destruct p; try done.
    unfold number_such_that, is_number, is_string. simpl.
    rewrite !bool_decide_eq_true_2; by eauto.
Qed.

Section Load.
Variables MIN_ZOOM MAX_ZOOM : Qc.
Variable JSON_parse : string → option json.

(** C8: [loadWorkspace] returns nothing when the version of the stored
    record is not the current one; when it is, the shapes it returns
    are the elements of the stored array that satisfy [isValidShape],
    each judged on its own, in their stored order; and of two valid
    shapes stored around one with a negative width, exactly the two
    valid ones are returned. *)
Theorem C8_load_workspace stored parsed :
  stored ≠ "" → JSON_parse stored = Some parsed →
  let loaded :=
    loadWorkspace MIN_ZOOM MAX_ZOOM JSON_parse true
      (Returns (Some stored)) in
  (as_number (get parsed "version") ≠ Some VERSION → loaded = None)
  ∧ (∀ shapes,
       as_number (get parsed "version") = Some VERSION →
       get parsed "shapes" = Some (JArr shapes) →
       ∃ r, loaded = Some r
            ∧ p_shapes r = filter (λ v, isValidShape v = true) shapes
            ∧ ∀ v, v ∈ p_shapes r ↔ v ∈ shapes ∧ shape_schema v)
  ∧ p_shapes <$> validate MIN_ZOOM MAX_ZOOM (payload 1)
      = Some [stored_shape 1 3; stored_shape 3 5]
  ∧ validate MIN_ZOOM MAX_ZOOM (payload 2) = None.
Proof.
  intros Hne Hparse. simpl. unfold loadWorkspace. simpl.
  rewrite decide_False by done. rewrite Hparse. simpl.
  split_and!.
  - intros Hv. unfold validate.
    destruct (negb _ || _); [done |].
    by rewrite bool_decide_eq_false_2.
  - intros shapes Hv Hs. unfold validate.
    destruct parsed; try done. simpl.
    rewrite bool_decide_eq_true_2 by done. simpl.
    simpl in Hs. rewrite Hs. eexists. split; [done |]. simpl.
    split; [done |]. intros v.
    rewrite list_elem_of_filter, isValidShape_schema. tauto.
  - reflexivity.
  - reflexivity.
Qed.
End Load.

Lemma C8_load_workspace_witness :
  p_shapes <$>
    loadWorkspace lo hi (λ _, Some (payload 1)) true
      (Returns (Some "stored"))
    = Some [stored_shape 1 3; stored_shape 3 5]
  ∧ loadWorkspace lo hi (λ _, Some (payload 2)) true
      (Returns (Some "stored")) = None.
Proof.
  split.
  - destruct (C8_load_workspace lo hi (λ _, Some (payload 1)) "stored"
                (payload 1)) as (_ & H & _); [discriminate | reflexivity |].
    destruct (H [stored_shape 1 3; stored_shape 2 (-3); stored_shape 3 5])
      as (r & Hr & Hs & _).
    + simpl. f_equal. apply Qc_is_canon. reflexivity.
    + reflexivity.
    + rewrite Hr. simpl. rewrite Hs. reflexivity.
  - destruct (C8_load_workspace lo hi (λ _, Some (payload 2)) "stored"
                (payload 2)) as (H & _); [discriminate | reflexivity |].
    apply H. vm_compute. discriminate.
Defined.
End StorageFacts.

(** ** Sharing of unchanged objects *)

Module RefFacts.
Import Ref.

Lemma preserved_refl h : preserved h h.
Proof. by intros l _. Qed.

Lemma preserved_trans h1 h2 h3 :
  preserved h1 h2 → preserved h2 h3 → preserved h1 h3.
Proof.
  intros H12 H23 l Hl. rewrite <- (H12 l Hl). apply H23.
  by rewrite (H12 l Hl).
Qed.

Lemma alloc_spec o h :
  h !! (alloc o h).1 = None ∧ (alloc o h).2 = <[(alloc o h).1 := o]> h.
Proof.
  unfold alloc. simpl. split; [|done].
  apply not_elem_of_dom, is_fresh.
Qed.

Lemma alloc_preserved o h : preserved h (alloc o h).2.
Proof.
  destruct (alloc_spec o h) as [Hfresh ->]. intros l [v Hl].
  apply lookup_insert_ne. intros <-. congruence.
Qed.

Lemma alloc_lookup o h : (alloc o h).2 !! (alloc o h).1 = Some o.
Proof. destruct (alloc_spec o h) as [_ ->]. apply lookup_insert_eq. Qed.

(** Writing to an object that [h] does not hold preserves [h]. *)
Lemma write_preserved h h' l o :
  h !! l = None → preserved h h' → preserved h (<[l := o]> h').
Proof.
  intros Hfresh Hp l' Hl'. rewrite lookup_insert_ne; [by apply Hp |].
  intros <-. destruct Hl'. congruence.
Qed.

Lemma read_shape_preserved h h' l :
  preserved h h' → is_Some (read_shape h l) → read_shape h' l = read_shape h l.
Proof.
  unfold read_shape. intros Hp Hl.
  destruct (h !! l) eqn:E; [|by destruct Hl]. by rewrite (Hp l), E.
Qed.

Lemma read_Some_allocated {A} (read : gmap loc obj → loc → option A) h l v :
  (∀ h l, h !! l = None → read h l = None) →
  read h l = Some v → is_Some (h !! l).
Proof.
  intros Hnone Hr. destruct (h !! l) eqn:E; [done |].
  rewrite Hnone in Hr; done.
Qed.

Lemma read_shapeState_allocated h l v :
  read_shapeState h l = Some v → is_Some (h !! l).
Proof.
  apply (read_Some_allocated read_shapeState).
  intros ? ? E. unfold read_shapeState. by rewrite E.
Qed.

Lemma read_array_allocated h l v :
  read_array h l = Some v → is_Some (h !! l).
Proof.
  apply (read_Some_allocated read_array).
  intros ? ? E. unfold read_array. by rewrite E.
Qed.

Lemma read_entities_allocated h l v :
  read_entities h l = Some v → is_Some (h !! l).
Proof.
  apply (read_Some_allocated read_entities).
  intros ? ? E. unfold read_entities. by rewrite E.
Qed.

(** What [moveShape] does on an id of the mapping. *)
Lemma moveShape_present σ i pos lids lent m lshape e :
  read_shapeState (heap σ) (shapeState (state σ)) = Some (lids, lent) →
  read_entities (heap σ) lent = Some m →
  m !! i = Some lshape →
  read_shape (heap σ) lshape = Some e →
  ∃ σ' lent' lshape',
    moveShape i pos σ = Some σ'
    ∧ read_shapeState (heap σ') (shapeState (state σ')) = Some (lids, lent')
    ∧ read_entities (heap σ') lent' = Some (<[i := lshape']> m)
    ∧ read_shape (heap σ') lshape' = Some (moved e pos)
    ∧ preserved (heap σ) (heap σ')
    ∧ other_fields σ' = other_fields σ.
Proof.
  intros Hss Hent Hm He. unfold moveShape.
  rewrite Hss. simpl. rewrite Hent. simpl. rewrite Hm, He. simpl.
  fold (moved e pos).
  set (a1 := alloc (OShape (moved e pos)) (heap σ)).
  set (a2 := alloc (OEntities (<[i := a1.1]> m)) a1.2).
  set (a3 := alloc (OShapeState lids a2.1) a2.2).
  exists (mkStore a3.2 (set_shapeState a3.1 (state σ))), a2.1, a1.1.
  pose proof (alloc_preserved (OShape (moved e pos)) (heap σ)) as P1.
  pose proof (alloc_preserved (OEntities (<[i := a1.1]> m)) a1.2) as P2.
  pose proof (alloc_preserved (OShapeState lids a2.1) a2.2) as P3.
  pose proof (alloc_lookup (OShape (moved e pos)) (heap σ)) as L1.
  pose proof (alloc_lookup (OEntities (<[i := a1.1]> m)) a1.2) as L2.
  pose proof (alloc_lookup (OShapeState lids a2.1) a2.2) as L3.
  fold a1 in P1, L1. fold a2 in P2, L2. fold a3 in P3, L3.
  split; [done |]. clearbody a1 a2 a3. split_and!; simpl.
  - unfold read_shapeState. by rewrite L3.
  - unfold read_entities. rewrite P3 by (by rewrite L2). by rewrite L2.
  - unfold read_shape.
    rewrite P3 by (rewrite P2; by rewrite L1).
    rewrite P2 by (by rewrite L1). by rewrite L1.
  - eauto using preserved_trans.
  - done.
Qed.

(** The order that [moveShapeLayer] leaves: the one computed by
    [moveShapeLayer_ids], or the old one when the id is not in it. *)
Lemma moveShapeLayer_spec σ shapeId direction lids lent l :
  read_shapeState (heap σ) (shapeState (state σ)) = Some (lids, lent) →
  read_array (heap σ) lids = Some l →
  ∃ σ' lids',
    moveShapeLayer shapeId direction σ = Some σ'
    ∧ read_shapeState (heap σ') (shapeState (state σ')) = Some (lids', lent)
    ∧ read_array (heap σ') lids'
        = Some (default l (moveShapeLayer_ids shapeId direction l))
    ∧ preserved (heap σ) (heap σ')
    ∧ other_fields σ' = other_fields σ.
Proof.
  intros Hss Harr. unfold moveShapeLayer, moveShapeLayer_ids.
  rewrite Hss. simpl. rewrite Harr. simpl.
  case_decide.
  { exists σ, lids. split_and!; done || apply preserved_refl. }
  set (new := reinsert direction (Z.of_nat (length l)) (indexOf l shapeId)
                shapeId (splice l (indexOf l shapeId) 1 []).2).
  set (a1 := alloc (OArray l) (heap σ)).
  set (h3 := <[a1.1 := OArray new]>
               (<[a1.1 := OArray (splice l (indexOf l shapeId) 1 []).2]>
                  a1.2)).
  set (a2 := alloc (OShapeState a1.1 lent) h3).
  exists (mkStore a2.2 (set_shapeState a2.1 (state σ))), a1.1.
  destruct (alloc_spec (OArray l) (heap σ)) as [F1 _].
  pose proof (alloc_preserved (OArray l) (heap σ)) as P1.
  pose proof (alloc_preserved (OShapeState a1.1 lent) h3) as P2.
  pose proof (alloc_lookup (OShapeState a1.1 lent) h3) as L2.
  fold a1 in F1, P1. fold a2 in P2, L2.
  assert (h3 !! a1.1 = Some (OArray new)) as L3
    by apply lookup_insert_eq.
  assert (preserved (heap σ) h3) as P3
    by (unfold h3; auto using write_preserved).
  split; [done |]. clearbody a1 a2 h3. split_and!; simpl.
  - unfold read_shapeState. by rewrite L2.
  - unfold read_array. rewrite P2 by (by rewrite L3). by rewrite L3.
  - eauto using preserved_trans.
  - done.
Qed.

Lemma reorderShapes_spec σ fromIndex toIndex lids lent l :
  read_shapeState (heap σ) (shapeState (state σ)) = Some (lids, lent) →
  read_array (heap σ) lids = Some l →
  match reorderShapes_ids fromIndex toIndex l with
  | None => reorderShapes fromIndex toIndex σ = None
  | Some newIds =>
      ∃ σ' lids',
        reorderShapes fromIndex toIndex σ = Some σ'
        ∧ read_shapeState (heap σ') (shapeState (state σ'))
            = Some (lids', lent)
        ∧ read_array (heap σ') lids' = Some newIds
        ∧ preserved (heap σ) (heap σ')
        ∧ other_fields σ' = other_fields σ
  end.
Proof.
  intros Hss Harr. unfold reorderShapes, reorderShapes_ids.
  rewrite Hss. cbn [mbind option_bind]. rewrite Harr.
  cbn [mbind option_bind].
  destruct (splice l fromIndex 1 []) as [removed spliced].
  destruct removed as [|movedId removed]; [done |]. simpl.
  set (new := (splice spliced toIndex 0 [movedId]).2).
  set (a1 := alloc (OArray l) (heap σ)).
  set (h3 := <[a1.1 := OArray new]> (<[a1.1 := OArray spliced]> a1.2)).
  set (a2 := alloc (OShapeState a1.1 lent) h3).
  exists (mkStore a2.2 (set_shapeState a2.1 (state σ))), a1.1.
  destruct (alloc_spec (OArray l) (heap σ)) as [F1 _].
  pose proof (alloc_preserved (OArray l) (heap σ)) as P1.
  pose proof (alloc_preserved (OShapeState a1.1 lent) h3) as P2.
  pose proof (alloc_lookup (OShapeState a1.1 lent) h3) as L2.
  fold a1 in F1, P1. fold a2 in P2, L2.
  assert (h3 !! a1.1 = Some (OArray new)) as L3
    by apply lookup_insert_eq.
  assert (preserved (heap σ) h3) as P3
    by (unfold h3; auto using write_preserved).
  split; [done |]. clearbody a1 a2 h3. split_and!; simpl.
  - unfold read_shapeState. by rewrite L2.
  - unfold read_array. rewrite P2 by (by rewrite L3). by rewrite L3.
  - eauto using preserved_trans.
  - done.
Qed.

(** *** Reading a store as a state by values *)

Lemma erase_reads σ lids lent l m :
  read_shapeState (heap σ) (shapeState (state σ)) = Some (lids, lent) →
  read_array (heap σ) lids = Some l →
  read_entities (heap σ) lent = Some m →
  erase σ
  = Some (set_shapeState (mkShapes l (omap (read_shape (heap σ)) m))
            (state σ)).
Proof.
  intros Hss Harr Hent. unfold erase, collection.
  rewrite Hss. simpl. rewrite Harr. simpl. by rewrite Hent.
Qed.

Lemma erase_inv σ s :
  erase σ = Some s →
  ∃ lids lent l m,
    read_shapeState (heap σ) (shapeState (state σ)) = Some (lids, lent)
    ∧ read_array (heap σ) lids = Some l
    ∧ read_entities (heap σ) lent = Some m
    ∧ s = set_shapeState (mkShapes l (omap (read_shape (heap σ)) m))
            (state σ).
Proof.
  unfold erase, collection. intros H.
  destruct (read_shapeState _ _) as [[lids lent]|]; [|done]. simpl in H.
  destruct (read_array _ _) as [l|] eqn:Harr; [|done]. simpl in H.
  destruct (read_entities _ _) as [m|] eqn:Hent; [|done]. simpl in H.
  exists lids, lent, l, m. by simplify_eq.
Qed.

Lemma other_fields_set_shapeState σ σ' (n : NormalizedShapes) :
  other_fields σ' = other_fields σ →
  set_shapeState n (state σ') = set_shapeState n (state σ).
Proof.
  unfold other_fields. intros H.
  change (set_shapeState n (set_shapeState () (state σ'))
          = set_shapeState n (set_shapeState () (state σ))).
  by rewrite H.
Qed.

Lemma read_array_preserved h h' l a :
  preserved h h' → read_array h l = Some a → read_array h' l = Some a.
Proof.
  intros Hp Hr. pose proof (read_array_allocated _ _ _ Hr) as Ha.
  unfold read_array in *. by rewrite (Hp l Ha).
Qed.

Lemma read_entities_preserved h h' l m :
  preserved h h' → read_entities h l = Some m → read_entities h' l = Some m.
Proof.
  intros Hp Hr. pose proof (read_entities_allocated _ _ _ Hr) as Ha.
  unfold read_entities in *. by rewrite (Hp l Ha).
Qed.

Lemma omap_read_shape_preserved h h' (m : gmap Z loc) :
  preserved h h' →
  (∀ i l, m !! i = Some l → is_Some (read_shape h l)) →
  omap (read_shape h') m = omap (read_shape h) m.
Proof.
  intros Hp Hres. apply map_eq. intros i. rewrite !lookup_omap.
  destruct (m !! i) as [l|] eqn:Hi; [|done]. simpl.
  eauto using read_shape_preserved.
Qed.
End RefFacts.

(** ** The heap model refines the model by values *)

Module Refinement.
Import RefFacts.

Lemma moveShape_refines σ i pos s :
  Ref.entities_resolve σ → Ref.erase σ = Some s →
  ∃ σ', Ref.moveShape i pos σ = Some σ'
        ∧ Ref.erase σ' = Some (moveShape i pos s)
        ∧ Ref.entities_resolve σ'.
Proof.
  intros Hres (lids & lent & l & m & Hss & Harr & Hent & ->)%erase_inv.
  pose proof (Hres lids lent m Hss Hent) as Hm.
  destruct (m !! i) as [lshape|] eqn:Hi.
  - destruct (Hm i lshape Hi) as [e He].
    destruct (moveShape_present σ i pos lids lent m lshape e)
      as (σ' & lent' & lshape' & Hmove & Hss' & Hent' & Hsh' & Hp & Hof);
      try done.
    exists σ'. split; [done |]. split.
    + rewrite (erase_reads σ' lids lent' l (<[i := lshape']> m))
        by eauto using read_array_preserved.
      f_equal. unfold moveShape. simpl. rewrite lookup_omap, Hi. simpl.
      rewrite He. unfold set_shapeState at 2. simpl.
      rewrite (omap_insert_Some _ _ _ _ (Ref.moved e pos)) by done.
      rewrite (omap_read_shape_preserved (Ref.heap σ) (Ref.heap σ')) by done.
      by apply other_fields_set_shapeState.
    + intros lids2 lent2 m2 Hss2 Hent2 j lj Hj. simplify_eq.
      apply lookup_insert_Some in Hj as [[-> <-] | [Hne Hj]].
      * by rewrite Hsh'.
      * rewrite (read_shape_preserved (Ref.heap σ)); eauto.
  - exists σ. split_and!; try done.
    + unfold Ref.moveShape. rewrite Hss. simpl. rewrite Hent. simpl.
      by rewrite Hi.
    + rewrite (erase_reads σ lids lent l m) by done.
      f_equal. unfold moveShape. simpl. by rewrite lookup_omap, Hi.
Qed.

Lemma moveShapeLayer_refines σ shapeId direction s :
  Ref.entities_resolve σ → Ref.erase σ = Some s →
  ∃ σ', Ref.moveShapeLayer shapeId direction σ = Some σ'
        ∧ Ref.erase σ' = Some (moveShapeLayer shapeId direction s)
        ∧ Ref.entities_resolve σ'.
Proof.
  intros Hres (lids & lent & l & m & Hss & Harr & Hent & ->)%erase_inv.
  pose proof (Hres lids lent m Hss Hent) as Hm.
  destruct (moveShapeLayer_spec σ shapeId direction lids lent l)
    as (σ' & lids' & Hmove & Hss' & Harr' & Hp & Hof); try done.
  exists σ'. split; [done |]. split.
  - rewrite (erase_reads σ' lids' lent _ m)
      by eauto using read_entities_preserved.
    f_equal. unfold moveShapeLayer. simpl.
    rewrite (omap_read_shape_preserved (Ref.heap σ) (Ref.heap σ')) by done.
    destruct (moveShapeLayer_ids _ _ _); simpl.
    + by apply other_fields_set_shapeState.
    + by apply other_fields_set_shapeState.
  - intros lids2 lent2 m2 Hss2 Hent2 j lj Hj.
    rewrite Hss' in Hss2. simplify_eq.
    rewrite (read_entities_preserved _ _ _ _ Hp Hent) in Hent2.
    simplify_eq. rewrite (read_shape_preserved (Ref.heap σ)); eauto.
Qed.

Lemma reorderShapes_refines σ fromIndex toIndex s :
  Ref.entities_resolve σ → Ref.erase σ = Some s →
  match reorderShapes fromIndex toIndex s with
  | None => Ref.reorderShapes fromIndex toIndex σ = None
  | Some s' =>
      ∃ σ', Ref.reorderShapes fromIndex toIndex σ = Some σ'
            ∧ Ref.erase σ' = Some s' ∧ Ref.entities_resolve σ'
  end.
Proof.
  intros Hres (lids & lent & l & m & Hss & Harr & Hent & ->)%erase_inv.
  pose proof (Hres lids lent m Hss Hent) as Hm.
  pose proof (reorderShapes_spec σ fromIndex toIndex lids lent l Hss Harr)
    as Hspec.
  unfold reorderShapes. simpl.
  destruct (reorderShapes_ids fromIndex toIndex l) as [newIds|];
    simpl; [|done].
  destruct Hspec as (σ' & lids' & Hmove & Hss' & Harr' & Hp & Hof).
  exists σ'. split; [done |]. split.
  - rewrite (erase_reads σ' lids' lent _ m)
      by eauto using read_entities_preserved.
    f_equal.
    rewrite (omap_read_shape_preserved (Ref.heap σ) (Ref.heap σ')) by done.
    by apply other_fields_set_shapeState.
  - intros lids2 lent2 m2 Hss2 Hent2 j lj Hj.
    rewrite Hss' in Hss2. simplify_eq.
    rewrite (read_entities_preserved _ _ _ _ Hp Hent) in Hent2.
    simplify_eq. rewrite (read_shape_preserved (Ref.heap σ)); eauto.
Qed.
End Refinement.

(** ** What the moving and layering actions share *)

Module Sharing.
Import Ref RefFacts.

(** C9: [moveShape] on an id of the collection allocates a new entity
    that differs from the old one in its position only, a new mapping
    and a new [shapeState] object.  The new [shapeState] holds the very
    same order array, with its contents; the new mapping holds, under
    every other id, the very same entity object, with its contents; no
    object that existed before is written to, and no other field of the
    state changes. *)
Theorem C9_move_shape_shares σ i pos lids lent l m lshape e :
  read_shapeState (heap σ) (shapeState (state σ)) = Some (lids, lent) →
  read_array (heap σ) lids = Some l →
  read_entities (heap σ) lent = Some m →
  m !! i = Some lshape →
  read_shape (heap σ) lshape = Some e →
  ∃ σ' lent' m' lshape',
    moveShape i pos σ = Some σ'
    ∧ read_shapeState (heap σ') (shapeState (state σ')) = Some (lids, lent')
    ∧ read_array (heap σ') lids = Some l
    ∧ read_entities (heap σ') lent' = Some m'
    ∧ m' !! i = Some lshape'
    ∧ read_shape (heap σ') lshape'
        = Some (mkShape (id e) (type e) (width e) (height e) (baseColor e)
                  (opacity e) pos)
    ∧ (∀ j, j ≠ i → m' !! j = m !! j)
    ∧ (∀ j lj ej, j ≠ i → m !! j = Some lj →
                  read_shape (heap σ) lj = Some ej →
                  read_shape (heap σ') lj = Some ej)
    ∧ preserved (heap σ) (heap σ')
    ∧ other_fields σ' = other_fields σ.
Proof.
  intros Hss Harr Hent Hi He.
  destruct (moveShape_present σ i pos lids lent m lshape e)
    as (σ' & lent' & lshape' & Hmove & Hss' & Hent' & Hsh' & Hp & Hof);
    try done.
  exists σ', lent', (<[i := lshape']> m), lshape'.
  split_and!; try done.
  - eauto using read_array_preserved.
  - apply lookup_insert_eq.
  - intros j Hj. by apply lookup_insert_ne.
  - intros j lj ej _ _ Hej.
    rewrite (read_shape_preserved (heap σ)); by rewrite ?Hej.
Qed.

Lemma C9_move_shape_shares_witness :
  ∃ σ' lent' m' lshape',
    moveShape 5 origin sample = Some σ'
    ∧ read_shapeState (heap σ') (shapeState (state σ'))
        = Some (1%positive, lent')
    ∧ read_array (heap σ') 1%positive = Some [5; 6]
    ∧ read_entities (heap σ') lent' = Some m'
    ∧ m' !! 5 = Some lshape'
    ∧ read_shape (heap σ') lshape'
        = Some (mkShape 5 box (Qc_of_Z 8) (Qc_of_Z 8) "#000000" 1%Qc origin)
    ∧ (∀ j, j ≠ 5 →
         m' !! j
         = (list_to_map [(5, 2%positive); (6, 3%positive)] : gmap Z loc)
             !! j)
    ∧ (∀ j lj ej, j ≠ 5 →
         (list_to_map [(5, 2%positive); (6, 3%positive)] : gmap Z loc) !! j
           = Some lj →
         read_shape (heap sample) lj = Some ej →
         read_shape (heap σ') lj = Some ej)
    ∧ preserved (heap sample) (heap σ')
    ∧ other_fields σ' = other_fields sample.
Proof.
  apply (C9_move_shape_shares sample 5 origin 1%positive 4%positive
           [5; 6] (list_to_map [(5, 2%positive); (6, 3%positive)])
           2%positive shape5); reflexivity.
Defined.

(** C10: [moveShapeLayer], whatever the direction, and [reorderShapes]
    leave the mapping object where it is: the new [shapeState] holds the
    very same mapping, no object that existed before (the mapping and
    the entities among them) is written to, and no other field of the
    state changes.  Both return a store: [moveShapeLayer] always,
    [reorderShapes] when [fromIndex] is an index of the order. *)
Theorem C10_layering_keeps_entities σ lids lent l m :
  read_shapeState (heap σ) (shapeState (state σ)) = Some (lids, lent) →
  read_array (heap σ) lids = Some l →
  read_entities (heap σ) lent = Some m →
  (∀ shapeId direction,
     ∃ σ' lids',
       moveShapeLayer shapeId direction σ = Some σ'
       ∧ read_shapeState (heap σ') (shapeState (state σ'))
           = Some (lids', lent)
       ∧ read_entities (heap σ') lent = Some m
       ∧ (∀ j lj ej, m !! j = Some lj →
                     read_shape (heap σ) lj = Some ej →
                     read_shape (heap σ') lj = Some ej)
       ∧ preserved (heap σ) (heap σ')
       ∧ other_fields σ' = other_fields σ)
  ∧ (∀ fromIndex toIndex σ',
       reorderShapes fromIndex toIndex σ = Some σ' →
       ∃ lids',
         read_shapeState (heap σ') (shapeState (state σ'))
           = Some (lids', lent)
         ∧ read_entities (heap σ') lent = Some m
         ∧ (∀ j lj ej, m !! j = Some lj →
                       read_shape (heap σ) lj = Some ej →
                       read_shape (heap σ') lj = Some ej)
         ∧ preserved (heap σ) (heap σ')
         ∧ other_fields σ' = other_fields σ)
  ∧ (∀ fromIndex toIndex,
       0 ≤ fromIndex < Z.of_nat (length l) →
       is_Some (reorderShapes fromIndex toIndex σ)).
Proof.
  intros Hss Harr Hent. split_and!.
  - intros shapeId direction.
    destruct (moveShapeLayer_spec σ shapeId direction lids lent l)
      as (σ' & lids' & Hmove & Hss' & _ & Hp & Hof); try done.
    exists σ', lids'. split_and!; try done.
    + eauto using read_entities_preserved.
    + intros j lj ej _ Hej.
      rewrite (read_shape_preserved (heap σ)); by rewrite ?Hej.
  - intros fromIndex toIndex σ' Hre.
    pose proof (reorderShapes_spec σ fromIndex toIndex lids lent l Hss Harr)
      as Hspec.
    destruct (reorderShapes_ids fromIndex toIndex l); [|congruence].
    destruct Hspec as (σ'' & lids' & Hmove & Hss' & _ & Hp & Hof).
    assert (σ'' = σ') as -> by congruence.
    exists lids'. split_and!; try done.
    + eauto using read_entities_preserved.
    + intros j lj ej _ Hej.
      rewrite (read_shape_preserved (heap σ)); by rewrite ?Hej.
  - intros fromIndex toIndex Hr.
    pose proof (reorderShapes_spec σ fromIndex toIndex lids lent l Hss Harr)
      as Hspec.
    destruct (reorderShapes_ids_in_range fromIndex toIndex l Hr) as [n Hn].
    rewrite Hn in Hspec. destruct Hspec as (σ' & _ & -> & _). done.
Qed.

Lemma C10_layering_keeps_entities_witness :
  (∃ σ' lids',
     moveShapeLayer 5 "sideways" sample = Some σ'
     ∧ read_shapeState (heap σ') (shapeState (state σ'))
         = Some (lids', 4%positive)
     ∧ preserved (heap sample) (heap σ'))
  ∧ is_Some (reorderShapes 0 1 sample).
Proof.
  destruct (C10_layering_keeps_entities sample 1%positive 4%positive
              [5; 6] (list_to_map [(5, 2%positive); (6, 3%positive)]))
    as (Hlayer & _ & Hsome); try reflexivity.
  split.
  - destruct (Hlayer 5 "sideways")
      as (σ' & lids' & H1 & H2 & _ & _ & H5 & _).
    exists σ', lids'. split; [exact H1 | split; [exact H2 | exact H5]].
  - apply Hsome. simpl. lia.
Defined.
End Sharing.

(** * Further properties of the store *)

(** ** Adding, editing and removing *)

Lemma valid_dimensions_Some w h p :
  valid_dimensions w h = Some p ↔
  ∃ w' h', w = Some w' ∧ h = Some h' ∧ (0 < w')%Qc ∧ (0 < h')%Qc
           ∧ p = (w', h').
Proof.
  unfold valid_dimensions. split.
  - destruct w as [w'|], h as [h'|]; try done.
    repeat case_decide; try done. intros [= <-].
    exists w', h'. split_and!; auto using Qcnot_le_lt.
  - intros (w' & h' & -> & -> & Hw & Hh & ->).
    rewrite !decide_False by (by apply Qclt_not_le). done.
Qed.

(** X1: [addShape] succeeds exactly when both pending dimensions are present
    and positive, and a call that fails leaves the state as it is. *)
Theorem addShape_accepts now position s :
  ((addShape now position s).1 = true ↔
   ∃ w h, formWidth s = Some w ∧ formHeight s = Some h
          ∧ (0 < w)%Qc ∧ (0 < h)%Qc)
  ∧ ((addShape now position s).1 = false ∧ (addShape now position s).2 = s
     ∨ (addShape now position s).1 = true).
Proof.
  unfold addShape.
  destruct (valid_dimensions _ _) as [[w h]|] eqn:E; simpl.
  - apply valid_dimensions_Some in E
      as (w' & h' & Hw & Hh & Hwpos & Hhpos & [= -> ->]).
    split; [|by right]. split; [|done]. intros _. by exists w', h'.
  - split; [|by left]. split; [done |].
    intros (w & h & Hw & Hh & Hwpos & Hhpos).
    rewrite Hw, Hh, valid_dimensions_positive in E by done. done.
Qed.

(** X4: [updateSelectedShape] returns true exactly when a non-zero id is
    selected and both pending dimensions are present and positive; a call
    that returns false leaves the state, and with it the draft, as it
    is. *)
Theorem updateSelectedShape_accepts s :
  ((updateSelectedShape s).1 = true ↔
   (∃ sel, selectedShapeId s = Some sel ∧ sel ≠ 0)
   ∧ ∃ w h, formWidth s = Some w ∧ formHeight s = Some h
            ∧ (0 < w)%Qc ∧ (0 < h)%Qc)
  ∧ ((updateSelectedShape s).1 = false ∧ (updateSelectedShape s).2 = s
     ∨ (updateSelectedShape s).1 = true).
Proof.
  unfold updateSelectedShape, truthy_id.
  destruct (selectedShapeId s) as [sel|]; simpl.
  2:{ split; [|by left]. split; [done |]. by intros [[? [? _]] _]. }
  case_decide as Hz; simpl.
  { split; [|by left]. split; [done |]. intros [[? [[= <-] ?]] _]. done. }
  destruct (valid_dimensions _ _) as [[w h]|] eqn:E; simpl.
  - apply valid_dimensions_Some in E
      as (w' & h' & Hw & Hh & Hwpos & Hhpos & [= -> ->]).
    split; [|by right]. split; [|done]. intros _.
    split; [by exists sel | by exists w', h'].
  - split; [|by left]. split; [done |].
    intros [_ (w & h & Hw & Hh & Hwpos & Hhpos)].
    rewrite Hw, Hh, valid_dimensions_positive in E by done. done.
Qed.

(** The shape that a successful [addShape] builds from the draft. *)
Lemma addShape_inv now position s s' :
  addShape now position s = (true, s') →
  ∃ w h,
    formWidth s = Some w ∧ formHeight s = Some h
    ∧ (0 < w)%Qc ∧ (0 < h)%Qc
    ∧ s' = reset_form
             (set_shapeState
                (mkShapes (ids (shapeState s) ++ [now])
                   (<[now := mkShape now (currentShapeType s) w h
                               (formBaseColor s) (formOpacity s)
                               (mkPoint (round (x position))
                                        (round (y position)))]>
                      (entities (shapeState s))))
                s).
Proof.
  unfold addShape.
  destruct (valid_dimensions _ _) as [[w h]|] eqn:E; [|done].
  apply valid_dimensions_Some in E
    as (w' & h' & Hw & Hh & Hwpos & Hhpos & [= -> ->]).
  intros [= <-]. exists w', h'. done.
Qed.

(** X2: After a successful [addShape] the list of shapes, back to front, is
    the old list with the new shape on top, every occurrence of the id read
    from the clock now showing the new shape.  With a clock value that is
    no id of the collection the old list is kept as it is. *)
Theorem addShape_selectShapes now pos s s' :
  addShape now pos s = (true, s') →
  ∃ newShape,
    id newShape = now
    ∧ type newShape = currentShapeType s
    ∧ formWidth s = Some (width newShape)
    ∧ formHeight s = Some (height newShape)
    ∧ baseColor newShape = formBaseColor s
    ∧ opacity newShape = formOpacity s
    ∧ position newShape = mkPoint (round (x pos)) (round (y pos))
    ∧ selectShapes s'
      = ((λ i, if decide (i = now) then Some newShape
               else entities (shapeState s) !! i) <$> ids (shapeState s))
        ++ [Some newShape]
    ∧ (now ∉ ids (shapeState s) →
       selectShapes s' = selectShapes s ++ [Some newShape])
    ∧ draft_is_default s'.
Proof.
  intros (w & h & Hw & Hh & _ & _ & ->)%addShape_inv.
  exists (mkShape now (currentShapeType s) w h (formBaseColor s)
            (formOpacity s) (mkPoint (round (x pos)) (round (y pos)))).
  split_and!; try reflexivity; try done.
  - unfold selectShapes. cbn [shapeState reset_form set_formOpacity
      set_formBaseColor set_formHeight set_formWidth set_currentShapeType
      set_selectedShapeId set_shapeState ids entities].
    rewrite fmap_app. cbn [fmap list_fmap].
    rewrite lookup_insert_eq. f_equal.
    apply list_fmap_ext. intros _ i _. rewrite lookup_insert.
    case_decide as E; case_decide as E'; try done; by subst.
  - intros Hfresh. unfold selectShapes. cbn [shapeState reset_form
      set_formOpacity set_formBaseColor set_formHeight set_formWidth
      set_currentShapeType set_selectedShapeId set_shapeState ids entities].
    rewrite fmap_app. cbn [fmap list_fmap].
    rewrite lookup_insert_eq. f_equal.
    apply list_fmap_ext. intros k i Hk. apply lookup_insert_ne.
    intros <-. apply Hfresh. by eapply list_elem_of_lookup_2.
Qed.

Lemma addShape_selectShapes_witness :
  ∃ newShape,
    id newShape = 1000
    ∧ type newShape = currentShapeType DEFAULT_STATE
    ∧ formWidth DEFAULT_STATE = Some (width newShape)
    ∧ formHeight DEFAULT_STATE = Some (height newShape)
    ∧ baseColor newShape = formBaseColor DEFAULT_STATE
    ∧ opacity newShape = formOpacity DEFAULT_STATE
    ∧ position newShape = mkPoint (round (x origin)) (round (y origin))
    ∧ selectShapes (addShape 1000 origin DEFAULT_STATE).2
      = ((λ i, if decide (i = 1000) then Some newShape
               else entities (shapeState DEFAULT_STATE) !! i)
           <$> ids (shapeState DEFAULT_STATE))
        ++ [Some newShape]
    ∧ (1000 ∉ ids (shapeState DEFAULT_STATE) →
       selectShapes (addShape 1000 origin DEFAULT_STATE).2
       = selectShapes DEFAULT_STATE ++ [Some newShape])
    ∧ draft_is_default (addShape 1000 origin DEFAULT_STATE).2.
Proof.
  apply (addShape_selectShapes 1000 origin DEFAULT_STATE).
  reflexivity.
Defined.

(** X5: [removeShape] takes the id out of the order and out of the mapping and
    touches no other entity; the remaining ids keep their order.  A
    selection on the removed id moves to the first remaining id, or to
    none; the draft is not touched either way.  Removing an id that is not
    in the collection leaves the collection as it is. *)
Theorem removeShape_effect i s :
  let s' := removeShape i s in
  (∀ j, j ∈ ids (shapeState s') ↔ j ∈ ids (shapeState s) ∧ j ≠ i)
  ∧ ids (shapeState s') `sublist_of` ids (shapeState s)
  ∧ entities (shapeState s') !! i = None
  ∧ (∀ j, j ≠ i →
       entities (shapeState s') !! j = entities (shapeState s) !! j)
  ∧ selectedShapeId s'
    = (if decide (selectedShapeId s = Some i)
       then head (ids (shapeState s')) else selectedShapeId s)
  ∧ (currentShapeType s', formWidth s', formHeight s', formBaseColor s',
     formOpacity s')
    = (currentShapeType s, formWidth s, formHeight s, formBaseColor s,
       formOpacity s)
  ∧ (i ∉ ids (shapeState s) → entities (shapeState s) !! i = None →
     shapeState s' = shapeState s).
Proof.
  simpl. split_and!; try done.
  - intros j. rewrite list_elem_of_filter. tauto.
  - apply sublist_filter.
  - apply lookup_delete_eq.
  - intros j Hj. by apply lookup_delete_ne.
  - intros Hni Hnone. destruct (shapeState s) as [l m]. simpl in *.
    f_equal.
    + clear Hnone. induction l as [|a l IH]; [done |].
      apply not_elem_of_cons in Hni as [Hne Hni].
      rewrite filter_cons_True by done. by rewrite IH.
    + by apply delete_id.
Qed.

(** X6: Moving a shape twice leaves it where the second move put it; moves of
    different shapes commute; a move of an id that is not in the mapping
    changes nothing. *)
Theorem moveShape_compose i j p q s :
  moveShape i q (moveShape i p s) = moveShape i q s
  ∧ (i ≠ j →
     moveShape i p (moveShape j q s) = moveShape j q (moveShape i p s))
  ∧ (entities (shapeState s) !! i = None → moveShape i p s = s).
Proof.
  unfold moveShape. split_and!.
  - destruct (entities (shapeState s) !! i) as [e|] eqn:Hi; simpl.
    + rewrite lookup_insert_eq. unfold set_shapeState. simpl.
      by rewrite insert_insert_eq.
    + by rewrite Hi.
  - intros Hne.
    destruct (entities (shapeState s) !! i) as [e|] eqn:Hi;
      destruct (entities (shapeState s) !! j) as [e'|] eqn:Hj; simpl;
      rewrite ?lookup_insert_ne by done; rewrite ?Hi, ?Hj; try done.
    unfold set_shapeState. simpl. by rewrite insert_insert_ne.
  - by intros ->.
Qed.

(** ** Rational arithmetic *)

Lemma Qc_eq_Qeq (a b : Qc) : a = b ↔ (this a == this b)%Q.
Proof. split; [by intros -> | apply Qc_is_canon]. Qed.

(** Goals and hypotheses over [Qc] restated over [Q]. *)
Ltac qc_to_q :=
  repeat match goal with
  | H : @eq Qc _ _ |- _ => apply Qc_eq_Qeq in H
  | |- @eq Qc _ _ => apply Qc_eq_Qeq
  end;
  unfold Qcle, Qclt, Qcdiv, Qcminus, Qcplus, Qcopp, Qcmult, Qcinv, Q2Qc,
    Qc_of_Z in *;
  cbn [this] in *;
  repeat (rewrite ?Qred_correct in * ).

Lemma Qfloor_unique (q : Q) (n : Z) :
  (inject_Z n <= q)%Q → (q < inject_Z n + 1)%Q → Qfloor q = n.
Proof.
  intros Hle Hlt.
  pose proof (Qfloor_le q) as H1. pose proof (Qlt_floor q) as H2.
  rewrite inject_Z_plus in H2.
  change (inject_Z 1) with 1%Q in H2.
  assert (Qfloor q < n + 1)%Z.
  { rewrite Zlt_Qlt, inject_Z_plus. change (inject_Z 1) with 1%Q. lra. }
  assert (n < Qfloor q + 1)%Z.
  { rewrite Zlt_Qlt, inject_Z_plus. change (inject_Z 1) with 1%Q. lra. }
  lia.
Qed.

Lemma round_nearest q :
  (∃ n : Z, round q = Qc_of_Z n
            ∧ (q - Q2Qc (1 # 2) < Qc_of_Z n)%Qc
            ∧ (Qc_of_Z n ≤ q + Q2Qc (1 # 2))%Qc)
  ∧ (∀ k : Z, round (Qc_of_Z k) = Qc_of_Z k)
  ∧ (∀ k : Z, round (Qc_of_Z k + Q2Qc (1 # 2))%Qc = Qc_of_Z (k + 1)).
Proof.
  split_and!.
  - exists (Qfloor (q + Q2Qc (1 # 2))%Qc). split; [done |].
    pose proof (Qfloor_le (q + Q2Qc (1 # 2))%Qc) as H1.
    pose proof (Qlt_floor (q + Q2Qc (1 # 2))%Qc) as H2.
    rewrite inject_Z_plus in H2. change (inject_Z 1) with 1%Q in H2.
    set (n := Qfloor (q + Q2Qc (1 # 2))%Qc) in *. clearbody n.
    qc_to_q. split; lra.
  - intros k. unfold round. f_equal. apply Qfloor_unique; qc_to_q; lra.
  - intros k. unfold round. f_equal. apply Qfloor_unique;
      rewrite ?inject_Z_plus; change (inject_Z 1) with 1%Q;
      qc_to_q; lra.
Qed.

(** X3: A shape is added on the pixel grid: the position stored with it has
    integer coordinates, each the integer nearest to the requested
    coordinate (at most one half away, a half going up), and a requested
    position that is on the grid already is stored as it is. *)
Theorem addShape_snaps_position now pos s s' :
  addShape now pos s = (true, s') →
  ∃ e (n m : Z),
    entities (shapeState s') !! now = Some e
    ∧ position e = mkPoint (Qc_of_Z n) (Qc_of_Z m)
    ∧ (x pos - Q2Qc (1 # 2) < Qc_of_Z n)%Qc
    ∧ (Qc_of_Z n ≤ x pos + Q2Qc (1 # 2))%Qc
    ∧ (y pos - Q2Qc (1 # 2) < Qc_of_Z m)%Qc
    ∧ (Qc_of_Z m ≤ y pos + Q2Qc (1 # 2))%Qc
    ∧ (∀ k l : Z, pos = mkPoint (Qc_of_Z k) (Qc_of_Z l) → position e = pos).
Proof.
  intros (w & h & _ & _ & _ & _ & ->)%addShape_inv.
  destruct (round_nearest (x pos)) as ((n & Hn & Hn1 & Hn2) & Hint & _).
  destruct (round_nearest (y pos)) as ((m & Hm & Hm1 & Hm2) & _ & _).
  exists (mkShape now (currentShapeType s) w h (formBaseColor s)
            (formOpacity s) (mkPoint (round (x pos)) (round (y pos)))), n, m.
  split; [apply lookup_insert_eq |].
  split; [cbn [position]; by rewrite Hn, Hm |].
  split_and!; try done.
  intros k l ->. cbn [position x y]. by rewrite !Hint.
Qed.

Lemma addShape_snaps_position_witness :
  ∃ e (n m : Z),
    entities (shapeState (addShape 1000 origin DEFAULT_STATE).2) !! 1000
    = Some e
    ∧ position e = mkPoint (Qc_of_Z n) (Qc_of_Z m)
    ∧ (x origin - Q2Qc (1 # 2) < Qc_of_Z n)%Qc
    ∧ (Qc_of_Z n ≤ x origin + Q2Qc (1 # 2))%Qc
    ∧ (y origin - Q2Qc (1 # 2) < Qc_of_Z m)%Qc
    ∧ (Qc_of_Z m ≤ y origin + Q2Qc (1 # 2))%Qc
    ∧ (∀ k l : Z, origin = mkPoint (Qc_of_Z k) (Qc_of_Z l) →
                  position e = origin).
Proof.
  apply (addShape_snaps_position 1000 origin DEFAULT_STATE).
  reflexivity.
Defined.

(** ** Invariants of the reachable states *)

Lemma normalizeShapes_snoc shapes shape :
  normalizeShapes (shapes ++ [shape])
  = mkShapes (ids (normalizeShapes shapes) ++ [id shape])
             (<[id shape := shape]> (entities (normalizeShapes shapes))).
Proof. unfold normalizeShapes. by rewrite foldl_snoc. Qed.

Lemma normalizeShapes_keyed shapes : keyed (normalizeShapes shapes).
Proof.
  induction shapes as [|shape shapes IH] using rev_ind.
  - intros i e. simpl. by rewrite lookup_empty.
  - rewrite normalizeShapes_snoc. intros i e. simpl.
    rewrite lookup_insert. case_decide as E; [|apply IH].
    by intros [= <-].
Qed.

Lemma dispatch_keyed MIN_ZOOM MAX_ZOOM a s s' :
  dispatch MIN_ZOOM MAX_ZOOM a s = Some s' →
  keyed (shapeState s) → keyed (shapeState s').
Proof.
  intros Hd Hs. destruct a; simpl in Hd; simplify_eq; try done.
  - unfold addShape. destruct (valid_dimensions _ _) as [[w h]|]; [|done].
    intros j e. simpl. rewrite lookup_insert.
    case_decide; [by intros [= <-] | apply Hs].
  - unfold updateSelectedShape.
    destruct (truthy_id _) as [sel|]; [|done].
    destruct (valid_dimensions _ _) as [[w h]|]; [|done]. simpl.
    destruct (entities (shapeState s) !! sel) as [e0|] eqn:He; [|done].
    intros j e. simpl. rewrite lookup_insert.
    case_decide; [|apply Hs]. intros [= <-]. simpl. subst. by apply Hs.
  - intros j e. simpl. rewrite lookup_delete.
    case_decide; [done | apply Hs].
  - unfold moveShape.
    destruct (entities (shapeState s) !! i) as [e0|] eqn:He; [|done].
    intros j e. simpl. rewrite lookup_insert.
    case_decide; [|apply Hs]. intros [= <-]. simpl. subst. by apply Hs.
  - unfold moveShapeLayer. by destruct (moveShapeLayer_ids _ _ _).
  - unfold reorderShapes in Hd.
    by destruct (reorderShapes_ids _ _ _); simplify_eq/=.
  - unfold setSelectedShapeId. by destruct (_ ≫= _).
  - destruct (resetView _ _ _ _ s) as [s''|] eqn:Hr; [|done].
    unfold resetView in Hr. case_decide; simplify_eq/=; [|done].
    destruct (boundingBox _ _); simplify_eq/=.
    by destruct (fit _ _ _ _ _); simplify_eq/=.
  - apply normalizeShapes_keyed.
Qed.

Lemma keyed_reachable MIN_ZOOM MAX_ZOOM s :
  reachable MIN_ZOOM MAX_ZOOM s → keyed (shapeState s).
Proof.
  induction 1 as [|a s s' _ IH Hd].
  - intros i e. simpl. by rewrite lookup_empty.
  - eauto using dispatch_keyed.
Qed.

(** X9: In every reachable state each entity is stored under its own id: the
    key of the mapping and the [id] field never drift apart.  Hence the
    list of [selectShapes] shows, at each position of the order, a shape
    whose [id] is the id at that position. *)
Theorem reachable_keyed MIN_ZOOM MAX_ZOOM s :
  reachable MIN_ZOOM MAX_ZOOM s →
  keyed (shapeState s)
  ∧ ∀ k i, ids (shapeState s) !! k = Some i →
           ∃ e, selectShapes s !! k = Some (Some e) ∧ id e = i.
Proof.
  intros Hr. pose proof (keyed_reachable _ _ _ Hr) as Hk.
  split; [exact Hk |]. intros k i Hi.
  destruct (proj1 (reachable_same_ids _ _ _ Hr i)) as [e He];
    [by eapply list_elem_of_lookup_2 |].
  exists e. split; [|by apply Hk].
  unfold selectShapes. by rewrite list_lookup_fmap, Hi; simpl; rewrite He.
Qed.

Lemma reachable_keyed_witness :
  keyed (shapeState two_shapes)
  ∧ ∀ k i, ids (shapeState two_shapes) !! k = Some i →
           ∃ e, selectShapes two_shapes !! k = Some (Some e) ∧ id e = i.
Proof.
  apply (reachable_keyed lo hi).
  exact (reachable_unique_reachable lo hi _ two_shapes_reachable_unique).
Defined.

(** X10: In every reachable state the selection, if there is one, refers to an
    entity of the collection: no action of the store leaves it
    dangling. *)
Theorem reachable_selection_is_live MIN_ZOOM MAX_ZOOM s sel :
  reachable MIN_ZOOM MAX_ZOOM s → selectedShapeId s = Some sel →
  sel ∈ ids (shapeState s) ∧ is_Some (entities (shapeState s) !! sel).
Proof.
  intros Hr Hsel.
  pose proof (reachable_selection_resolves _ _ _ Hr sel Hsel) as Hlive.
  split; [|done]. by apply (reachable_same_ids _ _ _ Hr).
Qed.

(** The shape 5 selected in a state hydrated with it. *)
Lemma editing_reachable : reachable lo hi editing.
Proof.
  unfold editing.
  eapply (reachable_step lo hi (SetFormBaseColor _)); [|reflexivity].
  eapply (reachable_step lo hi (SetFormHeight _)); [|reflexivity].
  eapply (reachable_step lo hi (SetFormWidth _)); [|reflexivity].
  eapply (reachable_step lo hi (SetCurrentShapeType _)); [|reflexivity].
  eapply (reachable_step lo hi (SetSelectedShapeId _)); [|reflexivity].
  eapply (reachable_step lo hi (Hydrate _)); [|reflexivity].
  apply reachable_init.
Defined.

Lemma reachable_selection_is_live_witness :
  5 ∈ ids (shapeState editing) ∧ is_Some (entities (shapeState editing) !! 5).
Proof.
  apply (reachable_selection_is_live lo hi editing 5).
  - exact editing_reachable.
  - reflexivity.
Defined.





(** ** Layering and reordering *)

Lemma indexOf_NoDup l k v :
  NoDup l → l !! k = Some v → indexOf l v = Z.of_nat k.
Proof.
  intros Hnd Hk. destruct (indexOf_spec l v) as [[_ Hni] | [Hr Hl]].
  - destruct Hni. by eapply list_elem_of_lookup_2.
  - pose proof (NoDup_lookup _ _ _ _ Hnd Hl Hk). lia.
Qed.

Lemma middle_lookup_delete {A} (d : list A) j v :
  (j ≤ length d)%nat →
  (take j d ++ v :: drop j d) !! j = Some v
  ∧ delete j (take j d ++ v :: drop j d) = d.
Proof.
  intros Hj. pose proof (length_take_le d j Hj) as Hlen. split.
  - by apply list_lookup_middle.
  - rewrite <- Hlen at 1. rewrite delete_middle. apply take_drop.
Qed.

Lemma splice_insert_at {A} (d : list A) (j : Z) v :
  0 ≤ j ≤ Z.of_nat (length d) →
  (splice d j 0 [v]).2 = take (Z.to_nat j) d ++ v :: drop (Z.to_nat j) d.
Proof.
  intros Hj. unfold splice. rewrite relativeStart_in_range by done. simpl.
  replace (Z.min (Z.max 0 0) (Z.of_nat (length d) - j)) with 0 by lia.
  by rewrite Z.add_0_r.
Qed.

Lemma middle_restore {A} (l : list A) k v :
  l !! k = Some v → take k (delete k l) ++ v :: drop k (delete k l) = l.
Proof.
  intros Hk. pose proof (lookup_lt_Some _ _ _ Hk) as Hlt.
  rewrite delete_take_drop.
  rewrite take_app_length' by (rewrite length_take; lia).
  rewrite drop_app_length' by (rewrite length_take; lia).
  by apply take_drop_middle.
Qed.

(** X7: Where [moveShapeLayer] puts an id that stands at index [k] of a
    duplicate-free order: at the end for [toFront], at the start for
    [toBack], one index later for [forward] unless it is last, one index
    earlier for [backward] unless it is first, and at [k] again for any
    other direction.  The other ids keep their relative order, and the
    order comes back unchanged whenever the target index is [k]. *)
Theorem moveShapeLayer_ids_target l k v direction :
  NoDup l → l !! k = Some v →
  let target :=
    if decide (direction = "toFront") then (length l - 1)%nat
    else if decide (direction = "toBack") then 0%nat
    else if decide (direction = "forward")
         then ((k + 1) `min` (length l - 1))%nat
    else if decide (direction = "backward") then pred k
    else k in
  ∃ r, moveShapeLayer_ids v direction l = Some r
       ∧ r !! target = Some v
       ∧ delete target r = delete k l
       ∧ (target = k → r = l).
Proof.
  intros Hnd Hk. pose proof (lookup_lt_Some _ _ _ Hk) as Hlt.
  unfold moveShapeLayer_ids. rewrite (indexOf_NoDup l k v) by done.
  rewrite decide_False by lia.
  rewrite (splice_remove l _ v) by (rewrite ?Nat2Z.id; done || lia).
  rewrite Nat2Z.id. cbn [snd].
  assert (length (delete k l) = (length l - 1)%nat) as Hlen
    by (rewrite length_delete; [lia | by eexists]).
  set (d := delete k l) in *.
  assert (∀ j, (j ≤ length d)%nat →
            ∃ r, Some (take j d ++ v :: drop j d) = Some r
                 ∧ r !! j = Some v ∧ delete j r = d ∧ (j = k → r = l))
    as Hgen.
  { intros j Hj. eexists. split; [done |].
    destruct (middle_lookup_delete d j v Hj) as [H1 H2].
    split_and!; [done | done |]. intros ->. by apply middle_restore. }
  unfold reinsert. repeat case_decide.
  - replace (d ++ [v]) with (take (length l - 1) d ++ v :: drop (length l - 1) d)
      by (rewrite take_ge, drop_ge by lia; done).
    apply Hgen. lia.
  - apply (Hgen 0%nat). lia.
  - rewrite splice_insert_at by lia.
    replace (Z.to_nat (Z.min (Z.of_nat (length l) - 1) (Z.of_nat k + 1)))
      with ((k + 1) `min` (length l - 1))%nat by lia.
    apply Hgen. lia.
  - rewrite splice_insert_at by lia.
    replace (Z.to_nat (Z.max 0 (Z.of_nat k - 1))) with (pred k) by lia.
    apply Hgen. lia.
  - rewrite splice_insert_at by lia. rewrite Nat2Z.id. apply Hgen. lia.
Qed.

Lemma moveShapeLayer_ids_target_witness :
  ∃ r, moveShapeLayer_ids 2 "forward" [1; 2; 3] = Some r
       ∧ r !! 2%nat = Some 2
       ∧ delete 2%nat r = [1; 3]
       ∧ (2%nat = 1%nat → r = [1; 2; 3]).
Proof.
  apply (moveShapeLayer_ids_target [1; 2; 3] 1 2 "forward").
  - repeat constructor; set_solver.
  - reflexivity.
Defined.

(** X8: [reorderShapes] with both indices in range moves the id at
    [fromIndex] to [toIndex] and keeps the relative order of the others;
    moving it back from [toIndex] to [fromIndex] restores the order. *)
Theorem reorderShapes_ids_round_trip l fromIndex toIndex v :
  l !! fromIndex = Some v → (toIndex < length l)%nat →
  ∃ r, reorderShapes_ids (Z.of_nat fromIndex) (Z.of_nat toIndex) l = Some r
       ∧ length r = length l
       ∧ r !! toIndex = Some v
       ∧ delete toIndex r = delete fromIndex l
       ∧ reorderShapes_ids (Z.of_nat toIndex) (Z.of_nat fromIndex) r = Some l.
Proof.
  intros Hfrom Hto. pose proof (lookup_lt_Some _ _ _ Hfrom) as Hlt.
  assert (length (delete fromIndex l) = (length l - 1)%nat) as Hlen
    by (rewrite length_delete; [lia | by eexists]).
  unfold reorderShapes_ids at 1.
  rewrite (splice_remove l _ v) by (rewrite ?Nat2Z.id; done || lia).
  rewrite Nat2Z.id, splice_insert_at by lia. rewrite Nat2Z.id.
  set (d := delete fromIndex l) in *.
  destruct (middle_lookup_delete d toIndex v ltac:(lia)) as [H1 H2].
  eexists. split; [done |]. split_and!; try done.
  - rewrite length_app. simpl. rewrite length_take, length_drop. lia.
  - unfold reorderShapes_ids.
    rewrite (splice_remove _ _ v) by (rewrite ?Nat2Z.id; done || lia).
    rewrite Nat2Z.id, H2, splice_insert_at by lia. rewrite Nat2Z.id.
    f_equal. by apply middle_restore.
Qed.

Lemma reorderShapes_ids_round_trip_witness :
  ∃ r, reorderShapes_ids 0 2 [1; 2; 3] = Some r
       ∧ length r = 3%nat
       ∧ r !! 2%nat = Some 1
       ∧ delete 2%nat r = [2; 3]
       ∧ reorderShapes_ids 2 0 r = Some [1; 2; 3].
Proof.
  apply (reorderShapes_ids_round_trip [1; 2; 3] 0 2 1).
  - reflexivity.
  - simpl. lia.
Defined.

(** ** Hydration *)

Lemma normalizeShapes_lookup shapes shape :
  NoDup (id <$> shapes) → shape ∈ shapes →
  entities (normalizeShapes shapes) !! id shape = Some shape.
Proof.
  induction shapes as [|last shapes IH] using rev_ind; [by intros _ ?%elem_of_nil |].
  rewrite fmap_app, normalizeShapes_snoc. simpl.
  intros [Hnd [Hdisj _]]%NoDup_app [Hin | ->%list_elem_of_singleton]%elem_of_app.
  - rewrite lookup_insert_ne; [by apply IH |].
    intros Heq. apply (Hdisj (id shape)).
    + apply list_elem_of_fmap. by exists shape.
    + rewrite Heq. by left.
  - apply lookup_insert_eq.
Qed.

Lemma selectShapes_hydrate MIN_ZOOM MAX_ZOOM data s :
  NoDup (id <$> default [] (d_shapes data)) →
  selectShapes (hydrate MIN_ZOOM MAX_ZOOM data s)
  = Some <$> default [] (d_shapes data).
Proof.
  intros Hnd. unfold selectShapes. simpl.
  rewrite normalizeShapes_ids, <- list_fmap_compose.
  apply list_fmap_ext. intros k shape Hk. simpl.
  apply normalizeShapes_lookup; [done |]. by eapply list_elem_of_lookup_2.
Qed.


Lemma clamp_in_range (value min max : Qc) :
  (min ≤ value ≤ max)%Qc → clamp value min max = value.
Proof.
  intros [Hlo Hhi]. unfold clamp, Qc_max, Qc_min.
  repeat case_decide; qc_to_q; lra.
Qed.

Lemma reachable_zoom MIN_ZOOM MAX_ZOOM s :
  (MIN_ZOOM ≤ Qc_of_Z 10 ≤ MAX_ZOOM)%Qc →
  reachable MIN_ZOOM MAX_ZOOM s → zoom_in_bounds MIN_ZOOM MAX_ZOOM s.
Proof.
  intros Hb. induction 1 as [|a s s' _ IH Hd]; [done |].
  eauto using dispatch_zoom.
Qed.

Lemma denormalizeShapes_resolved n :
  same_ids n → ∃ shapes, denormalizeShapes n = Some <$> shapes.
Proof.
  intros Hs. unfold denormalizeShapes.
  assert (Forall (λ i, is_Some (entities n !! i)) (ids n)) as Hall
    by (apply Forall_forall; intros i Hi; by apply Hs).
  clear Hs. generalize dependent (ids n). intros l Hall.
  induction Hall as [|i l [e He] _ (shapes & Heq)].
  - by exists [].
  - exists (e :: shapes). by rewrite !fmap_cons, He, Heq.
Qed.

Lemma normalizeShapes_restores n shapes :
  NoDup (ids n) → same_ids n → keyed n →
  denormalizeShapes n = Some <$> shapes → normalizeShapes shapes = n.
Proof.
  intros Hnd Hs Hk Hden.
  assert (∀ k e, shapes !! k = Some e →
                 ids n !! k = Some (id e) ∧ entities n !! id e = Some e)
    as Hshape.
  { intros k e He.
    assert (denormalizeShapes n !! k = Some (Some e)) as Hd
      by (by rewrite Hden, list_lookup_fmap, He).
    unfold denormalizeShapes in Hd. rewrite list_lookup_fmap in Hd.
    destruct (ids n !! k) as [i|] eqn:Hi; [|done]. simpl in Hd.
    injection Hd as Hd. pose proof (Hk _ _ Hd) as <-. done. }
  assert (id <$> shapes = ids n) as Hids.
  { apply list_eq. intros k. rewrite list_lookup_fmap.
    destruct (shapes !! k) as [e|] eqn:He; simpl.
    - symmetry. by apply Hshape.
    - symmetry. apply lookup_ge_None. apply lookup_ge_None in He.
      apply (f_equal length) in Hden. unfold denormalizeShapes in Hden.
      rewrite !length_fmap in Hden. lia. }
  destruct n as [l m]. simpl in *.
  pose proof (normalizeShapes_ids shapes) as Hnids.
  pose proof (normalizeShapes_same_ids shapes) as Hnsame.
  destruct (normalizeShapes shapes) as [l' m'] eqn:Hn. simpl in *.
  rewrite Hids in Hnids. subst l'. f_equal.
  apply map_eq. intros i.
  destruct (decide (i ∈ l)) as [Hin | Hni].
  - apply list_elem_of_lookup in Hin as [k Hk'].
    assert (is_Some (shapes !! k)) as [e He].
    { apply lookup_lt_is_Some. apply lookup_lt_Some in Hk'.
      apply (f_equal length) in Hids. rewrite length_fmap in Hids. lia. }
    destruct (Hshape k e He) as [Hk'' Hm]. simpl in *.
    assert (id e = i) as <- by congruence. rewrite Hm.
    change m' with (entities (mkShapes l m')). rewrite <- Hn.
    apply normalizeShapes_lookup; [by rewrite Hids |].
    by eapply list_elem_of_lookup_2.
  - destruct (m !! i) eqn:E1.
    { destruct Hni. apply (Hs i). simpl. by rewrite E1. }
    destruct (m' !! i) eqn:E2; [|done].
    destruct Hni. apply (Hnsame i). simpl. by rewrite E2.
Qed.

(** X15: What [getPersistedWorkspace] takes of a reachable state whose ids
    are unique is enough for [hydrate] to bring back the collection, the
    view and the two panel flags, from whatever state it is called; the
    selection is cleared and the draft of the hydrated store is kept. *)
Theorem hydrate_getPersistedWorkspace MIN_ZOOM MAX_ZOOM s s0 :
  (MIN_ZOOM ≤ Qc_of_Z 10 ≤ MAX_ZOOM)%Qc →
  reachable_unique MIN_ZOOM MAX_ZOOM s →
  ∃ s', hydrate_persisted MIN_ZOOM MAX_ZOOM (getPersistedWorkspace s) s0
        = Some s'
        ∧ shapeState s' = shapeState s
        ∧ zoom s' = zoom s
        ∧ canvasOffset s' = canvasOffset s
        ∧ isControlsPanelOpen s' = isControlsPanelOpen s
        ∧ isShapeListOpen s' = isShapeListOpen s
        ∧ selectedShapeId s' = None
        ∧ (currentShapeType s', formWidth s', formHeight s',
           formBaseColor s', formOpacity s')
          = (currentShapeType s0, formWidth s0, formHeight s0,
             formBaseColor s0, formOpacity s0).
Proof.
  intros Hb Hu. pose proof (reachable_unique_reachable _ _ _ Hu) as Hr.
  pose proof (reachable_same_ids _ _ _ Hr) as Hs.
  pose proof (keyed_reachable _ _ _ Hr) as Hk.
  pose proof (reachable_unique_NoDup _ _ _ Hu) as Hnd.
  pose proof (reachable_zoom _ _ _ Hb Hr) as Hz.
  destruct (denormalizeShapes_resolved _ Hs) as (shapes & Hden).
  unfold hydrate_persisted, getPersistedWorkspace. simpl.
  rewrite Hden, (mapM_fmap_Some _ Some) by done. simpl.
  eexists. split; [done |]. simpl. split_and!; try done.
  - by apply normalizeShapes_restores.
  - by apply clamp_in_range.
Qed.

Lemma hydrate_getPersistedWorkspace_witness :
  ∃ s', hydrate_persisted lo hi (getPersistedWorkspace two_shapes) editing
        = Some s'
        ∧ shapeState s' = shapeState two_shapes
        ∧ zoom s' = zoom two_shapes
        ∧ canvasOffset s' = canvasOffset two_shapes
        ∧ isControlsPanelOpen s' = isControlsPanelOpen two_shapes
        ∧ isShapeListOpen s' = isShapeListOpen two_shapes
        ∧ selectedShapeId s' = None
        ∧ (currentShapeType s', formWidth s', formHeight s',
           formBaseColor s', formOpacity s')
          = (currentShapeType editing, formWidth editing, formHeight editing,
             formBaseColor editing, formOpacity editing).
Proof.
  apply (hydrate_getPersistedWorkspace lo hi two_shapes editing).
  - exact lo_hi_bounds.
  - exact two_shapes_reachable_unique.
Defined.

(** ** Fitting the view *)


Lemma within_weaken x0 y0 x1 y1 x0' y0' x1' y1' e :
  (x0' ≤ x0)%Qc → (y0' ≤ y0)%Qc → (x1 ≤ x1')%Qc → (y1 ≤ y1')%Qc →
  within x0 y0 x1 y1 e → within x0' y0' x1' y1' e.
Proof.
  unfold within. intros ? ? ? ? (? & ? & ? & ?).
  split_and!; etrans; eauto.
Qed.



















(** * Further properties of the persistence *)

Module PersistenceFacts.
Import Storage Save.

(** X19: [loadWorkspace] returns a record exactly when there is a window, the
    stored item is a non-empty string that parses to an object (not an
    array, not [null]) whose version is the current one and whose shapes
    are an array.  Nothing else about the stored value can make it return
    nothing. *)
Theorem loadWorkspace_accepts MIN_ZOOM MAX_ZOOM JSON_parse windowDefined item :
  is_Some (loadWorkspace MIN_ZOOM MAX_ZOOM JSON_parse windowDefined item) ↔
  windowDefined = true
  ∧ ∃ stored fields shapes,
      item = Returns (Some stored) ∧ stored ≠ ""
      ∧ JSON_parse stored = Some (JObj fields)
      ∧ as_number (assoc "version" fields) = Some VERSION
      ∧ assoc "shapes" fields = Some (JArr shapes).
Proof.
  unfold loadWorkspace. split.
  - destruct windowDefined; simpl; [|by intros [? ?]].
    destruct item as [|[stored|]]; try (by intros [? ?]).
    case_decide as Hne; [by intros [? ?] |].
    destruct (JSON_parse stored) as [parsed|] eqn:Hp; simpl;
      [|by intros [? ?]].
    unfold validate.
    destruct parsed as [| | | | |fields]; simpl; try (by intros [? ?]).
    case_bool_decide as Hv; simpl; [|by intros [? ?]].
    destruct (assoc "shapes" fields) as [[| | | |shapes|]|] eqn:Hs;
      try (by intros [? ?]).
    intros _. split; [done |]. by exists stored, fields, shapes.
  - intros [-> (stored & fields & shapes & -> & Hne & Hp & Hv & Hs)].
    simpl. rewrite decide_False by done. rewrite Hp. simpl.
    unfold validate. simpl. rewrite bool_decide_eq_true_2 by done. simpl.
    rewrite Hs. by eexists.
Qed.

(** X20: Whatever is stored, a record that [loadWorkspace] returns carries the
    current version, a zoom within the bounds, and only shapes that meet
    the schema. *)
Theorem loadWorkspace_sound MIN_ZOOM MAX_ZOOM JSON_parse windowDefined item r :
  (MIN_ZOOM ≤ Qc_of_Z 10 ≤ MAX_ZOOM)%Qc →
  loadWorkspace MIN_ZOOM MAX_ZOOM JSON_parse windowDefined item = Some r →
  p_version r = VERSION
  ∧ (MIN_ZOOM ≤ p_zoom r ≤ MAX_ZOOM)%Qc
  ∧ Forall shape_schema (p_shapes r).
Proof.
  intros Hb Hload.
  assert (MIN_ZOOM ≤ MAX_ZOOM)%Qc as Hmm by (destruct Hb; by etrans).
  unfold loadWorkspace in Hload.
  destruct windowDefined; simpl in Hload; [|done].
  destruct item as [|[stored|]]; try done.
  case_decide; [done |].
  destruct (JSON_parse stored) as [parsed|]; simpl in Hload; [|done].
  unfold validate in Hload.
  destruct (negb _ || _); [done |].
  destruct (negb _); [done |].
  destruct (get parsed "shapes") as [[| | | |shapes|]|]; try done.
  injection Hload as <-. simpl. split_and!; [done | | |].
  - destruct (as_number _); [by apply clamp_bounds | apply Hb].
  - destruct (as_number _); [by apply clamp_bounds | apply Hb].
  - apply Forall_forall. intros v [Hv _]%list_elem_of_filter.
    by apply StorageFacts.isValidShape_schema.
Qed.

Lemma loadWorkspace_sound_witness :
  p_version <$> loadWorkspace lo hi (λ _, Some (payload 1)) true
                  (Returns (Some "stored")) = Some VERSION.
Proof.
  destruct (loadWorkspace lo hi (λ _, Some (payload 1)) true
              (Returns (Some "stored"))) as [r|] eqn:E;
    [|vm_compute in E; discriminate E].
  simpl. f_equal.
  exact (proj1 (loadWorkspace_sound lo hi _ _ _ r lo_hi_bounds E)).
Defined.

Lemma get_shape_json e :
  get (shape_json e) "id" = Some (JNum (Qc_of_Z (id e)))
  ∧ get (shape_json e) "type" = Some (JStr (type_name (type e)))
  ∧ get (shape_json e) "width" = Some (JNum (width e))
  ∧ get (shape_json e) "height" = Some (JNum (height e))
  ∧ get (shape_json e) "baseColor" = Some (JStr (baseColor e))
  ∧ get (shape_json e) "opacity" = Some (JNum (opacity e))
  ∧ get (shape_json e) "position" = Some (point_json (position e)).
Proof. split_and!; reflexivity. Qed.

Lemma get_point_json p :
  get (point_json p) "x" = Some (JNum (x p))
  ∧ get (point_json p) "y" = Some (JNum (y p)).
Proof. split; reflexivity. Qed.

Lemma isValidShape_shape_json e : isValidShape (shape_json e) = persistable e.
Proof.
  destruct (get_shape_json e) as (Hi & Ht & Hw & Hh & Hc & Ho & Hp).
  destruct (get_point_json (position e)) as [Hx Hy].
  unfold isValidShape.
  rewrite Hi, Ht, Hw, Hh, Hc, Ho, Hp.
  cbn [mbind option_bind]. rewrite Hx, Hy.
  unfold persistable, number_such_that, is_number, is_string, point_json.
  cbn [as_number as_string from_option typeof_object is_null negb orb].
  rewrite !(bool_decide_eq_true_2 (is_Some (Some _))) by (by eexists).
  rewrite (bool_decide_eq_true_2 (type_name (type e) ∈ _))
    by (destruct (type e); set_solver).
  cbn [andb negb]. by rewrite !andb_true_r.
Qed.

Lemma filter_element_json (shapes : list (option ShapeData)) :
  filter (λ v, isValidShape v = true) (element_json <$> shapes)
  = shape_json <$>
      filter (λ e, persistable e = true)
        (omap (λ o : option ShapeData, o) shapes).
Proof.
  induction shapes as [|[e|] shapes IH].
  - done.
  - rewrite fmap_cons. cbn [omap list_omap element_json from_option].
    destruct (persistable e) eqn:He.
    + rewrite !filter_cons_True by (by rewrite ?isValidShape_shape_json).
      rewrite fmap_cons. by rewrite IH.
    + rewrite !filter_cons_False
        by (rewrite ?isValidShape_shape_json, ?He; done).
      done.
  - rewrite fmap_cons. cbn [omap list_omap element_json from_option].
    rewrite filter_cons_False by done. done.
Qed.

Lemma clamp_idempotent (value min max : Qc) :
  (min ≤ max)%Qc → clamp (clamp value min max) min max = clamp value min max.
Proof. intros H. by apply clamp_in_range, clamp_bounds. Qed.

Lemma get_payload_json MIN_ZOOM MAX_ZOOM state :
  let v := payload_json MIN_ZOOM MAX_ZOOM state in
  get v "version" = Some (JNum VERSION)
  ∧ get v "shapes" = Some (JArr (element_json <$> w_shapes state))
  ∧ get v "zoom" = Some (JNum (clamp (w_zoom state) MIN_ZOOM MAX_ZOOM))
  ∧ get v "canvasOffset" = Some (point_json (w_canvasOffset state))
  ∧ get v "isControlsPanelOpen" = Some (JBool (w_isControlsPanelOpen state))
  ∧ get v "isShapeListOpen" = Some (JBool (w_isShapeListOpen state)).
Proof. split_and!; reflexivity. Qed.

Lemma validate_payload_json MIN_ZOOM MAX_ZOOM state :
  (MIN_ZOOM ≤ MAX_ZOOM)%Qc →
  validate MIN_ZOOM MAX_ZOOM (payload_json MIN_ZOOM MAX_ZOOM state)
  = Some (mkPersisted VERSION
            (shape_json <$>
               filter (λ e, persistable e = true)
                 (omap (λ o : option ShapeData, o) (w_shapes state)))
            (clamp (w_zoom state) MIN_ZOOM MAX_ZOOM)
            (w_canvasOffset state)
            (w_isControlsPanelOpen state) (w_isShapeListOpen state)).
Proof.
  intros Hmm. unfold validate.
  destruct (get_payload_json MIN_ZOOM MAX_ZOOM state)
    as (Hv & Hs & Hz & Ho & Hc & Hl).
  destruct (get_point_json (w_canvasOffset state)) as [Hx Hy].
  rewrite Hv, Hs, Hz, Ho, Hc, Hl. cbn [mbind option_bind].
  rewrite Hx, Hy.
  change (typeof_object (Some (payload_json MIN_ZOOM MAX_ZOOM state)))
    with true.
  change (is_null (Some (payload_json MIN_ZOOM MAX_ZOOM state))) with false.
  change (typeof_object (Some (point_json (w_canvasOffset state))))
    with true.
  change (is_null (Some (point_json (w_canvasOffset state)))) with false.
  cbn [negb orb andb as_number as_boolean default from_option].
  rewrite bool_decide_eq_true_2 by done. cbn [negb].
  unfold default. cbn [from_option].
  rewrite filter_element_json, clamp_idempotent by done.
  by destruct (w_canvasOffset state).
Qed.

(** X21: Loading what [saveWorkspace] has written, when [JSON.parse] reads
    back the value that [JSON.stringify] wrote: the shapes returned are
    the saved shapes that have positive sizes and an opacity between 0 and
    1, in their saved order (the others, and the [undefined] left by ids
    without an entity, are dropped); the zoom is the saved zoom clamped;
    the offset and the two flags are the saved ones. *)
Theorem loadWorkspace_after_save MIN_ZOOM MAX_ZOOM JSON_stringify JSON_parse
    state item :
  (MIN_ZOOM ≤ MAX_ZOOM)%Qc →
  JSON_stringify (payload_json MIN_ZOOM MAX_ZOOM state) ≠ "" →
  JSON_parse (JSON_stringify (payload_json MIN_ZOOM MAX_ZOOM state))
    = Some (payload_json MIN_ZOOM MAX_ZOOM state) →
  loadWorkspace MIN_ZOOM MAX_ZOOM JSON_parse true
    (Returns (saveWorkspace MIN_ZOOM MAX_ZOOM JSON_stringify true false
                state item))
  = Some (mkPersisted VERSION
            (shape_json <$>
               filter (λ e, persistable e = true)
                 (omap (λ o : option ShapeData, o) (w_shapes state)))
            (clamp (w_zoom state) MIN_ZOOM MAX_ZOOM)
            (w_canvasOffset state)
            (w_isControlsPanelOpen state) (w_isShapeListOpen state)).
Proof.
  intros Hmm Hne Hparse. unfold loadWorkspace, saveWorkspace.
  cbn [negb]. rewrite decide_False by done. rewrite Hparse.
  cbn [mbind option_bind]. by apply validate_payload_json.
Qed.

Lemma loadWorkspace_after_save_witness :
  loadWorkspace lo hi
    (λ _, Some (payload_json lo hi (getPersistedWorkspace two_shapes))) true
    (Returns (saveWorkspace lo hi (λ _, "saved") true false
                (getPersistedWorkspace two_shapes) None))
  = Some (mkPersisted VERSION
            (shape_json <$>
               filter (λ e, persistable e = true)
                 (omap (λ o : option ShapeData, o)
                    (w_shapes (getPersistedWorkspace two_shapes))))
            (clamp (w_zoom (getPersistedWorkspace two_shapes)) lo hi)
            (w_canvasOffset (getPersistedWorkspace two_shapes))
            (w_isControlsPanelOpen (getPersistedWorkspace two_shapes))
            (w_isShapeListOpen (getPersistedWorkspace two_shapes))).
Proof.
  apply (loadWorkspace_after_save lo hi (λ _, "saved")
           (λ _, Some (payload_json lo hi (getPersistedWorkspace two_shapes)))
           (getPersistedWorkspace two_shapes) None).
  - apply Qc_le_concrete. reflexivity.
  - discriminate.
  - reflexivity.
Defined.

Lemma shape_of_json_shape_json e : shape_of_json (shape_json e) = Some e.
Proof.
  destruct (get_shape_json e) as (Hi & Ht & Hw & Hh & Hc & Ho & Hp).
  destruct (get_point_json (position e)) as [Hx Hy].
  unfold shape_of_json. rewrite Hi, Ht, Hw, Hh, Hc, Ho, Hp.
  cbn [as_number as_string mbind option_bind]. rewrite Hx, Hy.
  cbn [as_number mbind option_bind].
  assert (integer_of (Qc_of_Z (id e)) = Some (id e)) as -> by reflexivity.
  assert (type_of_name (type_name (type e)) = Some (type e)) as ->
    by (by destruct (type e)).
  cbn [mbind option_bind]. by destruct e as [? ? ? ? ? ? []].
Qed.

Lemma omap_Some_fmap {A} (l : list A) :
  omap (λ o : option A, o) (Some <$> l) = l.
Proof.
  induction l as [|a l IH]; [done |].
  rewrite fmap_cons. cbn [omap list_omap]. by f_equal.
Qed.

Lemma filter_all {A} (P : A → Prop) `{∀ a, Decision (P a)} (l : list A) :
  Forall P l → filter P l = l.
Proof.
  induction 1 as [|a l Ha _ IH]; [done |].
  rewrite filter_cons_True by done. by rewrite IH.
Qed.

Lemma denormalized_ids n shapes :
  keyed n → denormalizeShapes n = Some <$> shapes → id <$> shapes = ids n.
Proof.
  intros Hk Hden. apply list_eq. intros k.
  assert (denormalizeShapes n !! k = Some <$> shapes !! k) as Hd
    by (by rewrite Hden, list_lookup_fmap).
  unfold denormalizeShapes in Hd. rewrite list_lookup_fmap in Hd.
  rewrite list_lookup_fmap.
  destruct (ids n !! k) as [i|], (shapes !! k) as [e|]; simpl in *; try done.
  injection Hd as Hd. by rewrite (Hk _ _ Hd).
Qed.

Lemma zoom_hydrate_Some MIN_ZOOM MAX_ZOOM shapes z offset controls list s :
  zoom (hydrate MIN_ZOOM MAX_ZOOM
          (mkPartial shapes (Some z) offset controls list) s)
  = clamp z MIN_ZOOM MAX_ZOOM.
Proof. reflexivity. Qed.

(** X22: A page reload.  The state of the store, taken by
    [getPersistedWorkspace] and written by [saveWorkspace], is read by
    [loadWorkspace] and hydrated into a fresh store.  From a reachable
    state with unique ids this brings back, in their order, the shapes
    that have positive sizes and an opacity between 0 and 1, and with them
    the zoom, the offset and the two flags; nothing is selected.  When
    every shape is of that kind, the collection is the one that was
    saved. *)
Theorem reload_restores MIN_ZOOM MAX_ZOOM JSON_stringify JSON_parse s s0 item :
  (MIN_ZOOM ≤ Qc_of_Z 10 ≤ MAX_ZOOM)%Qc →
  reachable_unique MIN_ZOOM MAX_ZOOM s →
  JSON_stringify (payload_json MIN_ZOOM MAX_ZOOM (getPersistedWorkspace s))
    ≠ "" →
  JSON_parse
    (JSON_stringify (payload_json MIN_ZOOM MAX_ZOOM (getPersistedWorkspace s)))
    = Some (payload_json MIN_ZOOM MAX_ZOOM (getPersistedWorkspace s)) →
  ∃ shapes s',
    selectShapes s = Some <$> shapes
    ∧ initWorkspacePersistence_hydrate MIN_ZOOM MAX_ZOOM JSON_parse true
        (Returns (saveWorkspace MIN_ZOOM MAX_ZOOM JSON_stringify true false
                    (getPersistedWorkspace s) item))
        s0
      = Some s'
    ∧ selectShapes s' = Some <$> filter (λ e, persistable e = true) shapes
    ∧ zoom s' = zoom s
    ∧ canvasOffset s' = canvasOffset s
    ∧ isControlsPanelOpen s' = isControlsPanelOpen s
    ∧ isShapeListOpen s' = isShapeListOpen s
    ∧ selectedShapeId s' = None
    ∧ (Forall (λ e, persistable e = true) shapes →
       shapeState s' = shapeState s).
Proof.
  intros Hb Hu Hne Hparse.
  assert (MIN_ZOOM ≤ MAX_ZOOM)%Qc as Hmm by (destruct Hb; by etrans).
  pose proof (reachable_unique_reachable _ _ _ Hu) as Hr.
  pose proof (reachable_same_ids _ _ _ Hr) as Hs.
  pose proof (keyed_reachable _ _ _ Hr) as Hk.
  pose proof (reachable_unique_NoDup _ _ _ Hu) as Hnd.
  pose proof (reachable_zoom _ _ _ Hb Hr) as Hz.
  destruct (denormalizeShapes_resolved _ Hs) as (shapes & Hden).
  pose proof (denormalized_ids _ _ Hk Hden) as Hids.
  exists shapes. unfold initWorkspacePersistence_hydrate.
  unfold loadWorkspace, saveWorkspace.
  cbn [negb]. rewrite decide_False by done. rewrite Hparse.
  cbn [mbind option_bind]. rewrite validate_payload_json by done.
  cbn [p_shapes p_zoom p_canvasOffset p_isControlsPanelOpen
       p_isShapeListOpen getPersistedWorkspace w_shapes w_zoom w_canvasOffset
       w_isControlsPanelOpen w_isShapeListOpen].
  rewrite Hden, omap_Some_fmap.
  rewrite (mapM_fmap_Some _ shape_json) by apply shape_of_json_shape_json.
  cbn [mbind option_bind]. eexists. split; [exact Hden |].
  split; [reflexivity |].
  set (kept := filter (λ e, persistable e = true) shapes).
  assert (NoDup (id <$> kept)) as Hkept.
  { apply (sublist_NoDup _ (id <$> shapes)).
    - rewrite Hids. exact Hnd.
    - apply fmap_sublist, sublist_filter. }
  pose proof (selectShapes_hydrate MIN_ZOOM MAX_ZOOM
                (mkPartial (Some kept)
                   (Some (clamp (zoom s) MIN_ZOOM MAX_ZOOM))
                   (Some (canvasOffset s)) (Some (isControlsPanelOpen s))
                   (Some (isShapeListOpen s))) s0) as Hsel.
  split; [by apply Hsel |].
  split; [| split_and!; try done].
  - rewrite zoom_hydrate_Some, clamp_idempotent by done.
    by apply clamp_in_range.
  - intros Hall. unfold kept. rewrite (filter_all _ _ Hall).
    by apply normalizeShapes_restores.
Qed.

Lemma reload_restores_witness :
  ∃ shapes s',
    selectShapes two_shapes = Some <$> shapes
    ∧ initWorkspacePersistence_hydrate lo hi
        (λ _, Some (payload_json lo hi (getPersistedWorkspace two_shapes)))
        true
        (Returns (saveWorkspace lo hi (λ _, "saved") true false
                    (getPersistedWorkspace two_shapes) None))
        DEFAULT_STATE
      = Some s'
    ∧ selectShapes s' = Some <$> filter (λ e, persistable e = true) shapes
    ∧ zoom s' = zoom two_shapes
    ∧ canvasOffset s' = canvasOffset two_shapes
    ∧ isControlsPanelOpen s' = isControlsPanelOpen two_shapes
    ∧ isShapeListOpen s' = isShapeListOpen two_shapes
    ∧ selectedShapeId s' = None
    ∧ (Forall (λ e, persistable e = true) shapes →
       shapeState s' = shapeState two_shapes).
Proof.
  apply (reload_restores lo hi (λ _, "saved")
           (λ _, Some (payload_json lo hi (getPersistedWorkspace two_shapes)))
           two_shapes DEFAULT_STATE None).
  - exact lo_hi_bounds.
  - exact two_shapes_reachable_unique.
  - discriminate.
  - reflexivity.
Defined.
End PersistenceFacts.

(** ** Loading with a stored selection *)

Module SelectionFacts.
Import Storage StorageWithSelection.

(** X23: The selection that the earlier [loadWorkspace] returns is never
    dangling: it is the id of a shape that was kept, and it is the stored
    selection whenever a kept shape has that id; nothing is selected only
    if no shape was kept. *)
Theorem restored_selection_is_valid MIN_ZOOM MAX_ZOOM JSON_parse
    windowDefined item r sel :
  StorageWithSelection.loadWorkspace MIN_ZOOM MAX_ZOOM JSON_parse
    windowDefined item = Some (r, sel) →
  (∀ i, sel = Some i →
        ∃ v, v ∈ p_shapes r ∧ as_number (get v "id") = Some i)
  ∧ (sel = None → p_shapes r = [])
  ∧ (∀ stored parsed i v,
       item = Returns (Some stored) → JSON_parse stored = Some parsed →
       as_number (get parsed "selectedShapeId") = Some i →
       v ∈ p_shapes r → as_number (get v "id") = Some i →
       sel = Some i).
Proof.
  unfold StorageWithSelection.loadWorkspace. intros Hload.
  destruct windowDefined; simpl in Hload; [|done].
  destruct item as [|[stored|]]; try done.
  case_decide; [done |].
  destruct (JSON_parse stored) as [parsed|] eqn:Hp; simpl in Hload; [|done].
  destruct (validate MIN_ZOOM MAX_ZOOM parsed) as [r'|] eqn:Hv;
    simpl in Hload; [|done].
  injection Hload as -> <-.
  assert (Forall (λ v, isValidShape v = true) (p_shapes r)) as Hvalid.
  { unfold validate in Hv.
    destruct (negb _ || _); [done |]. destruct (negb _); [done |].
    destruct (get parsed "shapes") as [[| | | |shapes|]|]; try done.
    injection Hv as <-. simpl. apply Forall_forall.
    by intros v [? _]%list_elem_of_filter. }
  assert (∀ i, first_id (p_shapes r) = Some i →
               ∃ v, v ∈ p_shapes r ∧ as_number (get v "id") = Some i)
    as Hfirst.
  { intros i. unfold first_id. destruct (p_shapes r) as [|v l]; [done |].
    simpl. intros Hi. exists v. split; [by left | done]. }
  assert (first_id (p_shapes r) = None → p_shapes r = []) as Hnone.
  { unfold first_id. destruct (p_shapes r) as [|v l]; [done |]. simpl.
    apply Forall_cons_1 in Hvalid as [Hv1 _].
    apply StorageFacts.isValidShape_schema in Hv1
      as (i & ? & ? & ? & ? & ? & ? & ? & ? & Hi & _).
    by rewrite Hi. }
  unfold restored_selection.
  destruct (as_number (get parsed "selectedShapeId")) as [stored_sel|]
    eqn:Hsel.
  - destruct (existsb _ _) eqn:Hex.
    + apply existsb_exists in Hex as (v & Hin & Hid%bool_decide_eq_true).
      split_and!; [| done |].
      * intros i [= <-]. exists v. split; [by apply list_elem_of_In | done].
      * intros ? ? i v' [= <-] Hp' Hi _ _. congruence.
    + split_and!; [done | done |].
      intros ? ? i v [= <-] Hp' Hi Hin Hid.
      assert (existsb
                (λ v, bool_decide (as_number (get v "id") = Some stored_sel))
                (p_shapes r) = true) as Hex'.
      { apply existsb_exists. exists v.
        split; [by apply list_elem_of_In |].
        apply bool_decide_eq_true. congruence. }
      congruence.
  - split_and!; [done | done |].
    intros ? ? i v [= <-] Hp' Hi. congruence.
Qed.

Lemma restored_selection_is_valid_witness :
  (∀ i, Some (Qc_of_Z 1) = Some i →
        ∃ v, v ∈ [stored_shape 1 3; stored_shape 3 5]
             ∧ as_number (get v "id") = Some i)
  ∧ (Some (Qc_of_Z 1) = None → [stored_shape 1 3; stored_shape 3 5] = []).
Proof.
  destruct (restored_selection_is_valid lo hi (λ _, Some (payload 1)) true
              (Returns (Some "stored"))
              (mkPersisted VERSION [stored_shape 1 3; stored_shape 3 5]
                 (clamp (Qc_of_Z 10) lo hi) (mkPoint 0 0)%Qc false true)
              (Some (Qc_of_Z 1))) as (H1 & H2 & _).
  - reflexivity.
  - split; [exact H1 | exact H2].
Defined.
End SelectionFacts.

(** * Properties of the editor *)

(** X24: The hook's [validateDimensions] reports no error exactly when the
    store's [addShape] and [updateSelectedShape] accept the dimensions;
    each of the two messages is reported exactly when its dimension is
    missing or not positive, the width before the height, so that two bad
    dimensions give both messages. *)
Theorem validateDimensions_agrees w h :
  (validateDimensions w h = [] ↔ is_Some (valid_dimensions w h))
  ∧ ("Width must be a positive number" ∈ validateDimensions w h
     ↔ ∀ q, w = Some q → (q ≤ 0)%Qc)
  ∧ ("Height must be a positive number" ∈ validateDimensions w h
     ↔ ∀ q, h = Some q → (q ≤ 0)%Qc)
  ∧ ((∀ q, w = Some q → (q ≤ 0)%Qc) → (∀ q, h = Some q → (q ≤ 0)%Qc) →
     validateDimensions w h
     = ["Width must be a positive number";
        "Height must be a positive number"]).
Proof.
  unfold validateDimensions, valid_dimensions, null_or_not_positive.
  destruct w as [w|], h as [h|]; repeat case_bool_decide;
    repeat case_decide; try done; simpl;
    (split_and!;
     [ split; (done || (by intros [? ?]) || (by intros; eexists))
     | split; [intros Hin | intros Hq]
     | split; [intros Hin | intros Hq]
     | intros Hw Hh ]);
    try done; try set_solver;
    try (by intros ? [= <-]);
    try (exfalso; naive_solver).
Qed.


(** ** The pixel grid *)





(** * How the actions of the store compose *)

(** X17: Selecting a shape of positive size under a non-zero id and submitting
    the form as it was filled in by the selection succeeds and leaves the
    collection exactly as it was; the store is back to no selection and the
    default draft. *)
Theorem select_then_update_keeps_shape i e s :
  i ≠ 0 → entities (shapeState s) !! i = Some e →
  (0 < width e)%Qc → (0 < height e)%Qc →
  ∃ s', updateSelectedShape (setSelectedShapeId (Some i) s) = (true, s')
        ∧ shapeState s' = shapeState s
        ∧ draft_is_default s'
        ∧ same_outside_draft s s'.
Proof.
  intros Hnz He Hw Hh. unfold setSelectedShapeId, truthy_id.
  rewrite decide_False by done. cbn [mbind option_bind]. rewrite He.
  unfold updateSelectedShape, truthy_id.
  cbn [selectedShapeId formWidth formHeight set_currentShapeType
       set_formOpacity set_formBaseColor set_formHeight set_formWidth
       set_selectedShapeId].
  rewrite decide_False by done.
  rewrite valid_dimensions_positive by done.
  cbn [shapeState set_currentShapeType set_formOpacity set_formBaseColor
       set_formHeight set_formWidth set_selectedShapeId].
  rewrite He. eexists. split; [reflexivity |].
  assert (mkShape (id e) (type e) (width e) (height e) (baseColor e)
            (opacity e) (position e) = e) as Hsame by (by destruct e).
  split_and!.
  - cbn [shapeState reset_form set_formOpacity set_formBaseColor
         set_formHeight set_formWidth set_currentShapeType
         set_selectedShapeId set_shapeState formBaseColor formOpacity].
    rewrite Hsame, insert_id by done. by destruct (shapeState s).
  - done.
  - unfold same_outside_draft.
    cbn [shapeState reset_form set_formOpacity set_formBaseColor
         set_formHeight set_formWidth set_currentShapeType
         set_selectedShapeId set_shapeState formBaseColor formOpacity zoom
         canvasOffset isControlsPanelOpen isShapeListOpen].
    rewrite Hsame, insert_id by done. split_and!; try done.
    by destruct (shapeState s).
Qed.

Lemma select_then_update_keeps_shape_witness :
  ∃ s', updateSelectedShape
          (setSelectedShapeId (Some 1000) two_shapes) = (true, s')
        ∧ shapeState s' = shapeState two_shapes
        ∧ draft_is_default s'
        ∧ same_outside_draft two_shapes s'.
Proof.
  apply (select_then_update_keeps_shape 1000
           (mkShape 1000 ellipse (Qc_of_Z 10) (Qc_of_Z 10) "#007BFF" 1%Qc
              (mkPoint (round 0) (round 0))) two_shapes).
  - discriminate.
  - reflexivity.
  - apply Qc_lt_concrete. reflexivity.
  - apply Qc_lt_concrete. reflexivity.
Defined.

(** X18: Removing a shape right after it was added, under an id that was not
    in the collection before, gives back the collection as it was, with
    nothing selected. *)
Theorem add_then_remove now pos s s' :
  now ∉ ids (shapeState s) → entities (shapeState s) !! now = None →
  addShape now pos s = (true, s') →
  shapeState (removeShape now s') = shapeState s
  ∧ selectedShapeId (removeShape now s') = None.
Proof.
  intros Hni Hnone (w & h & _ & _ & _ & _ & ->)%addShape_inv.
  split; [|done].
  unfold removeShape.
  cbn [shapeState reset_form set_formOpacity set_formBaseColor
       set_formHeight set_formWidth set_currentShapeType
       set_selectedShapeId set_shapeState ids entities].
  rewrite delete_insert_eq, delete_id by done.
  rewrite filter_app, filter_cons_False, filter_nil, app_nil_r by tauto.
  rewrite PersistenceFacts.filter_all; [by destruct (shapeState s) |].
  apply Forall_forall. intros j Hj ->. done.
Qed.

Lemma add_then_remove_witness :
  shapeState (removeShape 1000 (addShape 1000 origin DEFAULT_STATE).2)
  = shapeState DEFAULT_STATE
  ∧ selectedShapeId (removeShape 1000 (addShape 1000 origin DEFAULT_STATE).2)
    = None.
Proof.
  apply (add_then_remove 1000 origin DEFAULT_STATE).
  - simpl. apply not_elem_of_nil.
  - reflexivity.
  - reflexivity.
Defined.

(** X16: The two selectors on the selection agree in every reachable state,
    but for a selection under the id 0: [selectIsEditing] holds whenever
    [selectSelectedShape] returns a shape, and [selectSelectedShape]
    returns the selected entity whenever [selectIsEditing] holds of a
    non-zero id. *)
Theorem selectors_agree MIN_ZOOM MAX_ZOOM s :
  reachable MIN_ZOOM MAX_ZOOM s →
  (is_Some (selectSelectedShape s) → selectIsEditing s = true)
  ∧ (∀ sel, selectedShapeId s = Some sel → sel ≠ 0 →
            selectIsEditing s = true
            ∧ selectSelectedShape s = entities (shapeState s) !! sel
            ∧ is_Some (selectSelectedShape s))
  ∧ (selectedShapeId s = Some 0 →
     selectIsEditing s = true ∧ selectSelectedShape s = None).
Proof.
  intros Hr. unfold selectSelectedShape, selectIsEditing, truthy_id.
  split_and!.
  - destruct (selectedShapeId s); [|by intros [? ?]].
    intros _. by apply bool_decide_eq_true.
  - intros sel Hsel Hnz. rewrite Hsel, decide_False by done. simpl.
    split_and!; [by rewrite ?bool_decide_eq_true | done |].
    by apply (reachable_selection_resolves _ _ _ Hr).
  - intros ->. split; [by apply bool_decide_eq_true | done].
Qed.

Lemma selectors_agree_witness :
  selectIsEditing editing = true
  ∧ selectSelectedShape editing = entities (shapeState editing) !! 5
  ∧ is_Some (selectSelectedShape editing).
Proof.
  destruct (selectors_agree lo hi editing editing_reachable) as (_ & H & _).
  apply (H 5); [reflexivity | discriminate].
Defined.
